(** * aurora-alert: the bulletin parser and its notification step

    A shallow embedding of [parse_forecast] and [send_email_alert]
    (aurora.py; script.py carries the same two functions and differs only in
    reporting through [print] instead of [logging]) together with the parts
    of the Python runtime they call.

    Conventions of the embedding.
    - A Python [str] is a [string]; a character is a code point below 256
      (the bulletin is plain ASCII text; the predicates below follow
      Python's tables for the whole Latin-1 range).
    - A call that may raise returns a [result]; [Raise e] is the exception
      leaving the call.  [try ... except ValueError] is a [match] on the
      result which lets every other exception through.
    - [datetime.now], [datetime.strptime] on the issue line, the
      environment settings and the SMTP session are parameters. *)

From Stdlib Require Import ZArith String Ascii List Bool Lia.
From Stdlib Require Import QArith Qround Qpower.
From Stdlib Require Import DecimalString Sorted Permutation.
From Stdlib Require Import Floats.SpecFloat.
Import ListNotations.

Local Open Scope string_scope.
Local Open Scope list_scope.
Local Open Scope Z_scope.

(** ** Exceptions and results *)

Inductive exn : Type :=
| ValueError
| IndexError
| OverflowError.

Inductive result (A : Type) : Type :=
| Ok (a : A)
| Raise (e : exn).

Arguments Ok {A} a.
Arguments Raise {A} e.

Definition bind {A B : Type} (r : result A) (k : A -> result B) : result B :=
  match r with
  | Ok a => k a
  | Raise e => Raise e
  end.

Declare Scope py_scope.
Delimit Scope py_scope with py.
Notation "x <- r ;; k" := (bind r (fun x => k))
  (at level 61, r at next level, right associativity) : py_scope.
Local Open Scope py_scope.

(** [xs[i]]: an index out of range raises [IndexError]. *)
Definition index {A : Type} (xs : list A) (i : nat) : result A :=
  match nth_error xs i with
  | Some x => Ok x
  | None => Raise IndexError
  end.

(** ** Python strings *)

Module PyStr.

Definition code (c : ascii) : Z := Z.of_nat (nat_of_ascii c).

Definition in_range (lo hi : Z) (c : ascii) : bool :=
  (lo <=? code c) && (code c <=? hi).

(** [str.isspace] on one character: TAB LF VT FF CR, FS GS RS US, SPACE,
    NEL and NBSP. *)
Definition isspace (c : ascii) : bool :=
  in_range 9 13 c || in_range 28 32 c || (code c =? 133) || (code c =? 160).

(** The line boundaries of [str.splitlines]. *)
Definition islinebreak (c : ascii) : bool :=
  in_range 10 13 c || in_range 28 30 c || (code c =? 133).

(** A decimal digit: what [\d], [int] and [float] accept. *)
Definition isdecimal (c : ascii) : bool := in_range 48 57 c.

(** [str.isdigit] on one character also accepts the superscripts
    [U+00B2], [U+00B3] and [U+00B9]. *)
Definition isdigit_char (c : ascii) : bool :=
  isdecimal c || (code c =? 178) || (code c =? 179) || (code c =? 185).

Definition digit_value (c : ascii) : Z := code c - 48.

Definition lower_char (c : ascii) : ascii :=
  if in_range 65 90 c then ascii_of_nat (nat_of_ascii c + 32) else c.

Fixpoint lower (s : string) : string :=
  match s with
  | EmptyString => EmptyString
  | String c r => String (lower_char c) (lower r)
  end.

Fixpoint all_chars (p : ascii -> bool) (s : string) : bool :=
  match s with
  | EmptyString => true
  | String c r => p c && all_chars p r
  end.

Definition is_empty (s : string) : bool :=
  match s with
  | EmptyString => true
  | String _ _ => false
  end.

(** [str.isdigit]. *)
Definition isdigit (s : string) : bool :=
  negb (is_empty s) && all_chars isdigit_char s.

Fixpoint lstrip (s : string) : string :=
  match s with
  | EmptyString => EmptyString
  | String c r => if isspace c then lstrip r else s
  end.

Fixpoint rstrip (s : string) : string :=
  match s with
  | EmptyString => EmptyString
  | String c r =>
      let r' := rstrip r in
      if isspace c && is_empty r' then EmptyString else String c r'
  end.

(** [str.strip()]. *)
Definition strip (s : string) : string := rstrip (lstrip s).

(** [str.split()]: the maximal runs of characters that are not
    whitespace. *)
Fixpoint split (s : string) : list string :=
  match s with
  | EmptyString => []
  | String c r =>
      if isspace c then split r
      else
        match r with
        | EmptyString => [String c EmptyString]
        | String c' _ =>
            if isspace c' then String c EmptyString :: split r
            else
              match split r with
              | w :: ws => String c w :: ws
              | [] => [String c EmptyString]
              end
        end
  end.

(** [str.split(sep)] for a one-character separator. *)
Fixpoint split_char (sep : ascii) (s : string) : list string :=
  match s with
  | EmptyString => [EmptyString]
  | String c r =>
      if Ascii.eqb c sep then EmptyString :: split_char sep r
      else
        match split_char sep r with
        | w :: ws => String c w :: ws
        | [] => [String c EmptyString]
        end
  end.

(** [s.startswith(p)]. *)
Fixpoint startswith (p s : string) : bool :=
  match p, s with
  | EmptyString, _ => true
  | String a p', String b s' => Ascii.eqb a b && startswith p' s'
  | String _ _, EmptyString => false
  end.

(** [sub in s]. *)
Fixpoint contains (sub s : string) : bool :=
  startswith sub s ||
  match s with
  | EmptyString => false
  | String _ r => contains sub r
  end.

(** [s.split(sep)[0]]: the text before the first occurrence of [sep]. *)
Fixpoint before (sep s : string) : string :=
  if startswith sep s then EmptyString
  else
    match s with
    | EmptyString => EmptyString
    | String c r => String c (before sep r)
    end.

(** [s[:n]]. *)
Fixpoint prefix_slice (n : nat) (s : string) : string :=
  match n, s with
  | S k, String c r => String c (prefix_slice k r)
  | _, _ => EmptyString
  end.

Definition snoc (s : string) (c : ascii) : string :=
  (s ++ String c EmptyString)%string.

(** [str.splitlines()]: [cur] is the line being read.  CR LF is one
    boundary; a final boundary opens no further line. *)
Fixpoint splitlines_from (cur s : string) : list string :=
  match s with
  | EmptyString => if is_empty cur then [] else [cur]
  | String c r =>
      if code c =? 13 then
        match r with
        | String c' r' =>
            if code c' =? 10 then cur :: splitlines_from EmptyString r'
            else cur :: splitlines_from EmptyString r
        | EmptyString => cur :: splitlines_from EmptyString r
        end
      else if islinebreak c then cur :: splitlines_from EmptyString r
      else splitlines_from (snoc cur c) r
  end.

Definition splitlines (s : string) : list string :=
  splitlines_from EmptyString s.

End PyStr.

(** ** Python numbers: [int(str)], [float(str)] and [int(float)] *)

Module PyNum.
Import PyStr.

(** The rest of a [digitpart] after its first digit: digits, each
    optionally preceded by one underscore. *)
Fixpoint digitpart_tail (s : string) : string * string :=
  match s with
  | EmptyString => (EmptyString, EmptyString)
  | String c r =>
      if isdecimal c then
        let (ds, rest) := digitpart_tail r in (String c ds, rest)
      else if code c =? 95 then
        match r with
        | String c' r' =>
            if isdecimal c' then
              let (ds, rest) := digitpart_tail r' in (String c' ds, rest)
            else (EmptyString, s)
        | EmptyString => (EmptyString, s)
        end
      else (EmptyString, s)
  end.

(** [digitpart ::= digit (["_"] digit)*]: the digits read, underscores
    dropped, and the text left. *)
Definition digitpart (s : string) : option (string * string) :=
  match s with
  | EmptyString => None
  | String c r =>
      if isdecimal c then
        let (ds, rest) := digitpart_tail r in Some (String c ds, rest)
      else None
  end.

Fixpoint digits_value (acc : Z) (ds : string) : Z :=
  match ds with
  | EmptyString => acc
  | String c r => digits_value (10 * acc + digit_value c) r
  end.

(** An optional sign; [true] for a minus. *)
Definition take_sign (s : string) : bool * string :=
  match s with
  | String c r =>
      if code c =? 45 then (true, r)
      else if code c =? 43 then (false, r)
      else (false, s)
  | EmptyString => (false, s)
  end.

Definition signed (neg : bool) (z : Z) : Z := if neg then - z else z.

(** [sys.get_int_max_str_digits()], CPython's default. *)
Definition int_max_str_digits : nat := 4300.

(** [int(s)] on a [str], base 10. *)
Definition py_int (s : string) : result Z :=
  let (neg, body) := take_sign (strip s) in
  match digitpart body with
  | Some (ds, EmptyString) =>
      if (int_max_str_digits <? String.length ds)%nat then Raise ValueError
      else Ok (signed neg (digits_value 0 ds))
  | _ => Raise ValueError
  end.

(** The exponent of a float literal, which must end the text. *)
Definition parse_exponent (s : string) : option Z :=
  match s with
  | EmptyString => Some 0
  | String c r =>
      if (code c =? 101) || (code c =? 69) then
        let (neg, body) := take_sign r in
        match digitpart body with
        | Some (ds, EmptyString) => Some (signed neg (digits_value 0 ds))
        | _ => None
        end
      else None
  end.

Definition is_point (c : ascii) : bool := code c =? 46.

(** [floatnumber]: integer digits, fraction digits and exponent. *)
Definition parse_number (s : string) : option (string * string * Z) :=
  match digitpart s with
  | Some (ip, rest) =>
      match rest with
      | String c rest' =>
          if is_point c then
            match digitpart rest' with
            | Some (fp, rest'') =>
                option_map (fun e => (ip, fp, e)) (parse_exponent rest'')
            | None =>
                option_map (fun e => (ip, EmptyString, e))
                           (parse_exponent rest')
            end
          else option_map (fun e => (ip, EmptyString, e))
                          (parse_exponent rest)
      | EmptyString => Some (ip, EmptyString, 0)
      end
  | None =>
      match s with
      | String c rest' =>
          if is_point c then
            match digitpart rest' with
            | Some (fp, rest'') =>
                option_map (fun e => (EmptyString, fp, e))
                           (parse_exponent rest'')
            | None => None
            end
          else None
      | EmptyString => None
      end
  end.

(** A Python [float] is an IEEE 754 binary64 number. *)
Definition prec : Z := 53.
Definition emax : Z := 1024.

(** The binary64 number nearest to [m * 10^e10] (ties to even). *)
Definition float_of_decimal (neg : bool) (m : Z) (e10 : Z) : spec_float :=
  match m with
  | Z0 => S754_zero neg
  | Zpos p =>
      if 0 <=? e10 then
        binary_round prec emax neg (Z.to_pos (Zpos p * 10 ^ e10)) 0
      else
        SFdiv prec emax (S754_finite neg p 0)
              (S754_finite false (Z.to_pos (10 ^ (- e10))) 0)
  | Zneg _ => S754_nan
  end.

(** [float(s)] on a [str]. *)
Definition py_float (s : string) : result spec_float :=
  let (neg, body) := take_sign (strip s) in
  let word := lower body in
  if (word =? "inf")%string || (word =? "infinity")%string then
    Ok (S754_infinity neg)
  else if (word =? "nan")%string then Ok S754_nan
  else
    match parse_number body with
    | Some (ip, fp, e) =>
        Ok (float_of_decimal neg (digits_value 0 (ip ++ fp)%string)
                             (e - Z.of_nat (String.length fp)))
    | None => Raise ValueError
    end.

(** [int(x)] on a [float]: truncation toward zero; a NaN raises
    [ValueError], an infinity [OverflowError]. *)
Definition int_of_float (x : spec_float) : result Z :=
  match x with
  | S754_zero _ => Ok 0
  | S754_finite s m e => Ok (signed s (Z.shiftl (Zpos m) e))
  | S754_nan => Raise ValueError
  | S754_infinity _ => Raise OverflowError
  end.

(** The rational number a finite float stands for. *)
Definition Q_of_float (x : spec_float) : Q :=
  match x with
  | S754_finite s m e => (inject_Z (signed s (Zpos m)) * Qpower 2 e)%Q
  | _ => 0%Q
  end.

Definition is_finite_nonneg (x : spec_float) : bool :=
  match x with
  | S754_zero _ => true
  | S754_finite s _ _ => negb s
  | _ => false
  end.

End PyNum.

(** ** The [datetime] module *)

Module Calendar.

(** [datetime.date]. *)
Record date : Type := mkdate { year : Z; month : Z; day : Z }.

Definition MINYEAR : Z := 1.
Definition MAXYEAR : Z := 9999.

Definition is_leap (y : Z) : bool :=
  (y mod 4 =? 0) && (negb (y mod 100 =? 0) || (y mod 400 =? 0)).

Definition days_in_month (y m : Z) : Z :=
  if m =? 2 then (if is_leap y then 29 else 28)
  else if (m =? 4) || (m =? 6) || (m =? 9) || (m =? 11) then 30
  else 31.

(** Days in the months of year [y] before month [m]. *)
Definition days_before_month (y m : Z) : Z :=
  fold_right (fun k acc => days_in_month y k + acc) 0
             (map Z.of_nat (seq 1 (Z.to_nat (m - 1)))).

(** Days before January 1st of year [y]. *)
Definition days_before_year (y : Z) : Z :=
  let p := y - 1 in p * 365 + p / 4 - p / 100 + p / 400.

(** [date.toordinal()]: 0001-01-01 is day 1. *)
Definition toordinal (d : date) : Z :=
  days_before_year (year d) + days_before_month (year d) (month d) + day d.

Definition valid_date (d : date) : bool :=
  (MINYEAR <=? year d) && (year d <=? MAXYEAR) &&
  (1 <=? month d) && (month d <=? 12) &&
  (1 <=? day d) && (day d <=? days_in_month (year d) (month d)).

(** The range of a C [int], through which the constructors take their
    arguments. *)
Definition fits_c_int (z : Z) : bool := (- 2 ^ 31 <=? z) && (z <? 2 ^ 31).

(** [date(y, m, d)]. *)
Definition new_date (y m d : Z) : result date :=
  if negb (fits_c_int y && fits_c_int m && fits_c_int d) then
    Raise OverflowError
  else if valid_date (mkdate y m d) then Ok (mkdate y m d)
  else Raise ValueError.

(** [time(hour=h)]: the hour of a time of day. *)
Definition new_time (h : Z) : result Z :=
  if negb (fits_c_int h) then Raise OverflowError
  else if (0 <=? h) && (h <=? 23) then Ok h
  else Raise ValueError.

(** A [datetime] on a whole hour, by its UTC fields.  The program only
    builds datetimes at minute, second and microsecond zero and moves
    them by whole hours. *)
Record datetime : Type := mkdatetime { dt_date : date; dt_hour : Z }.

(** [datetime.combine(d, t, tzinfo=UTC_TZ)]. *)
Definition combine (d : date) (t : Z) : datetime := mkdatetime d t.

Definition date_eqb (a b : date) : bool :=
  (year a =? year b) && (month a =? month b) && (day a =? day b).

Definition date_max : date := mkdate MAXYEAR 12 31.

Definition next_day (d : date) : date :=
  if day d <? days_in_month (year d) (month d) then
    mkdate (year d) (month d) (day d + 1)
  else if month d <? 12 then mkdate (year d) (month d + 1) 1
  else mkdate (year d + 1) 1 1.

(** [n] days later; leaving year 9999 raises [OverflowError]. *)
Fixpoint add_days (n : nat) (d : date) : result date :=
  match n with
  | O => Ok d
  | S k =>
      if date_eqb d date_max then Raise OverflowError
      else add_days k (next_day d)
  end.

(** [dt + timedelta(hours=h)] for [h >= 0]. *)
Definition add_hours (dt : datetime) (h : Z) : result datetime :=
  let total := dt_hour dt + h in
  d <- add_days (Z.to_nat (total / 24)) (dt_date dt) ;;
  Ok (mkdatetime d (total mod 24)).

(** Hours and minutes from the start of day 0 to a UTC instant. *)
Definition hours_of (dt : datetime) : Z :=
  toordinal (dt_date dt) * 24 + dt_hour dt.

Definition minutes_of (dt : datetime) : Z := hours_of dt * 60.

(** A time zone: its key and its offset from UTC, in minutes, at a UTC
    instant. *)
Record tzinfo : Type := mktz { tz_key : string; utcoffset : datetime -> Z }.

Definition UTC_TZ : tzinfo := mktz "UTC" (fun _ => 0).

(** The wall clock of the zone at a UTC instant, in minutes. *)
Definition wall_minutes (tz : tzinfo) (dt : datetime) : Z :=
  minutes_of dt + utcoffset tz dt.

(** [datetime.min] and the minute after [datetime.max], in minutes. *)
Definition min_minutes : Z := 1440.
Definition end_minutes : Z := (toordinal date_max + 1) * 1440.

(** [dt.astimezone(tz)] keeps the instant and changes the zone of
    presentation; a wall clock outside [datetime.min .. datetime.max]
    raises [OverflowError].  The result is given by its UTC fields. *)
Definition astimezone (dt : datetime) (tz : tzinfo) : result datetime :=
  if (min_minutes <=? wall_minutes tz dt) &&
     (wall_minutes tz dt <? end_minutes)
  then Ok dt else Raise OverflowError.

End Calendar.

(** ** Reports

    aurora.py reports through [logging], script.py through [print]; a run
    is observed by the list of its reports, oldest first. *)

Inductive level : Type := INFO | WARNING | ERROR.

Inductive report : Type :=
| IssuedLineNotParsed (line : string)
| IssuedYearNotFound (current_year : Z)
| DateHeaderNotFound
| ExpectedThreeDates (got : nat) (raw : list string)
| DateComponentsError (raw : list string)
| NoPeriodsNoEmail (threshold : Z)
| NoValidRecipients
| EmailSent (sender : string) (bcc : nat)
| EmailError
| EmailUnexpectedError
| NoForecastData.

Definition level_of (r : report) : level :=
  match r with
  | IssuedLineNotParsed _ | IssuedYearNotFound _ | NoForecastData => WARNING
  | NoPeriodsNoEmail _ | EmailSent _ _ => INFO
  | _ => ERROR
  end.

(** ** The bulletin parser *)

Import PyStr PyNum Calendar.

(** A high-Kp period: [(local_start_dt, local_end_dt, kp_index)]. *)
Definition period : Type := (datetime * datetime * Z)%type.

Definition period_start (p : period) : datetime := fst (fst p).
Definition period_end (p : period) : datetime := snd (fst p).
Definition period_kp (p : period) : Z := snd p.

(** The month names of [%b] in the C locale. *)
Definition month_abbr : list (string * Z) :=
  [("jan", 1); ("feb", 2); ("mar", 3); ("apr", 4); ("may", 5); ("jun", 6);
   ("jul", 7); ("aug", 8); ("sep", 9); ("oct", 10); ("nov", 11); ("dec", 12)].

Fixpoint lookup (k : string) (table : list (string * Z)) : option Z :=
  match table with
  | [] => None
  | (k', v) :: rest => if (k =? k')%string then Some v else lookup k rest
  end.

(** [datetime.strptime(month_str.strip(), "%b").month]: the whole text must
    be a month abbreviation, in any letter case. *)
Definition month_str_to_int (month_str : string) : result Z :=
  match lookup (lower (strip month_str)) month_abbr with
  | Some m => Ok m
  | None => Raise ValueError
  end.

(** [re.match(r"\d{2}-\d{2}UT", line)]. *)
Definition match_time_row (line : string) : bool :=
  match line with
  | String a (String b (String c (String d (String e (String f
      (String g _)))))) =>
      isdecimal a && isdecimal b && (code c =? 45) &&
      isdecimal d && isdecimal e && (code f =? 85) && (code g =? 84)
  | _ => false
  end.

Definition marker : string := "NOAA Kp index breakdown".

(** Line 217: [int(float(kp_str))]. *)
Definition kp_index_of (kp_str : string) : result Z :=
  x <- py_float kp_str ;;
  int_of_float x.

Section Parser.

(** [datetime.now(UTC_TZ).year], read once before the issue line is
    looked for. *)
Variable now_year : Z.

(** [datetime.now(UTC_TZ).month], read again for each forecast date;
    [now_month k] is the reading taken for column [k]. *)
Variable now_month : nat -> Z.

(** [datetime.strptime(s, fmt).year]; [None] when it raises
    [ValueError]. *)
Variable strptime_year : string -> string -> option Z.

Variable KP_THRESHOLD : Z.

(** Lines 126-140: the year of the first [:Issued:] line that parses in
    one of the two layouts, and a warning for each one that does not. *)
Fixpoint issued_scan (lines : list string) : option Z * list report :=
  match lines with
  | [] => (None, [])
  | line :: rest =>
      if startswith ":Issued:" line then
        let issued_parts := split_char ":" line in
        match nth_error issued_parts 2 with
        | Some part =>
            let issued_str := before " UTC" (strip part) in
            match strptime_year issued_str "%Y %b %d %H%M" with
            | Some y => (Some y, [])
            | None =>
                match strptime_year issued_str "%b %d %H%M %Y" with
                | Some y => (Some y, [])
                | None =>
                    let (found, log) := issued_scan rest in
                    (found, IssuedLineNotParsed line :: log)
                end
            end
        | None => issued_scan rest
        end
      else issued_scan rest
  end.

(** Lines 124-142: [current_year] after the issue line scan. *)
Definition resolve_year (lines : list string) : Z * list report :=
  match issued_scan lines with
  | (Some y, log) => (y, log)
  | (None, log) => (now_year, log ++ [IssuedYearNotFound now_year])
  end.

(** Lines 149-167: the lines at the given offsets after marker line [i].
    A blank line is passed over; the first line that is not blank
    decides. *)
Fixpoint probe_header (lines : list string) (i : nat) (offsets : list nat)
  : option (nat * list string) :=
  match offsets with
  | [] => None
  | next_line_offset :: more =>
      let current_check_idx := (i + next_line_offset)%nat in
      match nth_error lines current_check_idx with
      | Some l =>
          let potential_date_line := strip l in
          if is_empty potential_date_line then probe_header lines i more
          else
            let parts := split potential_date_line in
            if (3 <=? length parts)%nat then
              match bind (index parts 0) month_str_to_int with
              | Ok _ => Some (current_check_idx, parts)
              | Raise _ => None (* [ValueError]: [parts] is not empty *)
              end
            else None
      | None => None
      end
  end.

(** Lines 147-169: [todo] is [lines] from index [i] on. *)
Fixpoint find_header_from (lines todo : list string) (i : nat)
  : option (nat * list string) :=
  match todo with
  | [] => None
  | line :: rest =>
      if contains marker line then
        match probe_header lines i [1; 2; 3]%nat with
        | Some found => Some found
        | None => find_header_from lines rest (S i)
        end
      else find_header_from lines rest (S i)
  end.

(** [(date_header_line_idx, forecast_dates_raw)], or [None] where the
    source leaves [date_header_line_idx] at [-1]. *)
Definition find_date_header (lines : list string)
  : option (nat * list string) :=
  find_header_from lines lines 0.

(** Lines 189-191. *)
Definition year_for_forecast (current_year : Z) (k : nat)
           (current_month_int : Z) : Z :=
  if (now_month k =? 12) && (current_month_int =? 1) then current_year + 1
  else current_year.

(** Lines 179-192: [raw] is [forecast_dates_raw] from [idx] on. *)
Fixpoint date_loop (current_year : Z) (raw : list string)
         (parsed_dates : list date) : result (list date) :=
  match raw with
  | [] => Ok parsed_dates
  | month_str :: raw1 =>
      if (3 <=? length parsed_dates)%nat then Ok parsed_dates
      else
        current_month_int <- month_str_to_int month_str ;;
        match raw1 with
        | day_str :: raw2 =>
            if isdigit day_str then
              day_int <- py_int day_str ;;
              d <- new_date (year_for_forecast current_year
                               (length parsed_dates) current_month_int)
                            current_month_int day_int ;;
              date_loop current_year raw2 (parsed_dates ++ [d])
            else Raise ValueError
        | [] => Raise ValueError
        end
  end.

Definition decode_dates (current_year : Z) (forecast_dates_raw : list string)
  : result (list date) :=
  date_loop current_year forecast_dates_raw [].

Section Rows.

Variable target_tz : tzinfo.
Variable parsed_dates : list date.

(** Lines 220-224. *)
Definition make_period (forecast_date_obj : date) (start_hour kp_index : Z)
  : result period :=
  t <- new_time start_hour ;;
  let utc_start_dt := combine forecast_date_obj t in
  utc_end_dt <- add_hours utc_start_dt 3 ;;
  local_start_dt <- astimezone utc_start_dt target_tz ;;
  local_end_dt <- astimezone utc_end_dt target_tz ;;
  Ok (local_start_dt, local_end_dt, kp_index).

(** Lines 217-224, the body of the [try]: the period appended for one
    value, if any. *)
Definition try_value (start_hour : Z) (i : nat) (kp_str : string)
  : result (list period) :=
  kp_index <- kp_index_of kp_str ;;
  if KP_THRESHOLD <=? kp_index then
    forecast_date_obj <- index parsed_dates i ;;
    p <- make_period forecast_date_obj start_hour kp_index ;;
    Ok [p]
  else Ok [].

(** Lines 213-226: the periods appended while reading the values of
    one row from column [i] on. *)
Fixpoint kp_loop (start_hour : Z) (i : nat) (kp_value_strs : list string)
  : result (list period) :=
  match kp_value_strs with
  | [] => Ok []
  | kp_str :: rest =>
      if (length parsed_dates <=? i)%nat then Ok []
      else
        match try_value start_hour i kp_str with
        | Ok ps =>
            more <- kp_loop start_hour (S i) rest ;;
            Ok (ps ++ more)
        | Raise ValueError => kp_loop start_hour (S i) rest
        | Raise e => Raise e
        end
  end.

(** Lines 201-212: the start hour and the value tokens of a table row;
    [None] where the loop goes on to the next line. *)
Definition row_fields (raw_line : string)
  : result (option (Z * list string)) :=
  let line := strip raw_line in
  if is_empty line || negb (match_time_row line) then Ok None
  else
    let parts := split line in
    time_period_str <- index parts 0 ;;
    let kp_value_strs := tl parts in
    if (length kp_value_strs <? length parsed_dates)%nat then Ok None
    else
      match py_int (prefix_slice 2 time_period_str) with
      | Ok start_hour => Ok (Some (start_hour, kp_value_strs))
      | Raise ValueError => Ok None
      | Raise e => Raise e
      end.

(** Lines 201-226: the periods appended for one line. *)
Definition process_row (raw_line : string) : result (list period) :=
  fields <- row_fields raw_line ;;
  match fields with
  | Some (start_hour, kp_value_strs) => kp_loop start_hour 0 kp_value_strs
  | None => Ok []
  end.

(** Lines 200-227: [high_kp_periods] after the lines that follow the
    date header. *)
Fixpoint scan_rows (rows : list string) : result (list period) :=
  match rows with
  | [] => Ok []
  | raw_line :: rest =>
      ps <- process_row raw_line ;;
      more <- scan_rows rest ;;
      Ok (ps ++ more)
  end.

End Rows.

(** [parse_forecast(forecast_text, target_tz)] on the lines of the text:
    the reports made and the list returned, or the exception that leaves
    the function. *)
Definition parse_lines (lines : list string) (target_tz : tzinfo)
  : list report * result (list period) :=
  let (current_year, log) := resolve_year lines in
  match find_date_header lines with
  | None => (log ++ [DateHeaderNotFound], Ok [])
  | Some (date_header_line_idx, forecast_dates_raw) =>
      match decode_dates current_year forecast_dates_raw with
      | Ok parsed_dates =>
          if negb (length parsed_dates =? 3)%nat then
            (log ++ [ExpectedThreeDates (length parsed_dates)
                                        forecast_dates_raw], Ok [])
          else
            (log, scan_rows target_tz parsed_dates
                            (skipn (S date_header_line_idx) lines))
      | Raise ValueError | Raise IndexError =>
          (log ++ [DateComponentsError forecast_dates_raw], Ok [])
      | Raise e => (log, Raise e)
      end
  end.

Definition parse_forecast (forecast_text : string) (target_tz : tzinfo)
  : list report * result (list period) :=
  if is_empty forecast_text then ([], Ok [])
  else parse_lines (splitlines forecast_text) target_tz.

(** The forecast dates a bulletin resolves to, with the index of its
    date header: what the row loop of [parse_lines] runs with. *)
Definition forecast_dates (lines : list string) : option (nat * list date) :=
  match find_date_header lines with
  | Some (idx, raw) =>
      match decode_dates (fst (resolve_year lines)) raw with
      | Ok dates => if (length dates =? 3)%nat then Some (idx, dates) else None
      | Raise _ => None
      end
  | None => None
  end.

End Parser.

(** ** The notification step *)

Definition newline : string := String (ascii_of_nat 10) EmptyString.
Definition degree : string := String (ascii_of_nat 176) EmptyString.

(** [str(n)] on an [int]. *)
Definition str_of_int (n : Z) : string := NilZero.string_of_int (Z.to_int n).

Record email : Type := mkemail {
  msg_from : string;
  msg_to : string;
  msg_subject : string;
  msg_body : string
}.

(** What happens to an SMTP session: the [with smtplib.SMTP(...)] block
    runs through, or raises [SMTPException], or raises something else. *)
Inductive smtp_outcome : Type := Delivered | SmtpFailed | OtherFailure.

(** What a run does that can be seen from outside. *)
Inductive action : Type :=
| Report (r : report)
| SmtpSession (sender : string) (to_addrs : list string) (msg : email).

Definition is_smtp_session (a : action) : bool :=
  match a with
  | SmtpSession _ _ _ => true
  | Report _ => false
  end.

(** [sorted(list(set(xs)))] on strings. *)
Fixpoint insert_unique (x : string) (xs : list string) : list string :=
  match xs with
  | [] => [x]
  | y :: rest =>
      match String.compare x y with
      | Lt => x :: xs
      | Eq => xs
      | Gt => y :: insert_unique x rest
      end
  end.

Definition sorted_set (xs : list string) : list string :=
  fold_right insert_unique [] xs.

(** [list.sort(key=...)]: stable, ascending. *)
Fixpoint insert_by {A : Type} (key : A -> Z) (x : A) (xs : list A) : list A :=
  match xs with
  | [] => [x]
  | y :: rest =>
      if key x <=? key y then x :: xs else y :: insert_by key x rest
  end.

Definition sort_by {A : Type} (key : A -> Z) (xs : list A) : list A :=
  fold_right (insert_by key) [] xs.

Section Notifier.

Variable KP_THRESHOLD : Z.
Variables EMAIL_SENDER RECIPIENT_STRING : string.

(** The two coordinates as an f-string renders them. *)
Variables MAGNETIC_LATITUDE MAGNETIC_LONGITUDE : string.

(** The zone the periods were converted to, and [strftime] on a datetime
    of that zone. *)
Variable local_tz : tzinfo.
Variable strftime : datetime -> string -> string.

Variable smtp : string -> list string -> email -> smtp_outcome.

Definition bcc_recipients (recipient_string : string) : list string :=
  map strip
      (filter (fun e => negb (is_empty (strip e)))
              (split_char "," recipient_string)).

Definition max_kp (high_kp_periods : list period) : Z :=
  match high_kp_periods with
  | [] => 0
  | p :: rest => fold_left Z.max (map period_kp rest) (period_kp p)
  end.

Definition period_line (p : period) : string :=
  ("- " ++ strftime (period_start p) "%a, %b %d, %I:%M %p" ++ " to " ++
   strftime (period_end p) "%I:%M %p %Z" ++
   ", Forecasted Kp-Index: " ++ str_of_int (period_kp p) ++ newline)%string.

(** Lines 248-264: subject and body. *)
Definition compose (high_kp_periods : list period)
           (local_tz_name_for_display : string) : string * string :=
  let subject :=
    ("Aurora Alert! Kp Index Forecast to Reach " ++
     str_of_int (max_kp high_kp_periods))%string in
  let sorted := sort_by (fun p => wall_minutes local_tz (period_start p))
                        high_kp_periods in
  let body :=
    ("High aurora activity is forecasted. Times are displayed in " ++
     local_tz_name_for_display ++ "." ++ newline ++
     "Alert triggered for Kp-index of " ++ str_of_int KP_THRESHOLD ++
     " or greater:" ++ newline ++ newline ++
     String.concat "" (map period_line sorted) ++
     newline ++
     "This alert was triggered based on settings for magnetic latitude ~" ++
     MAGNETIC_LATITUDE ++ degree ++ " and longitude ~" ++
     MAGNETIC_LONGITUDE ++ degree ++ "." ++
     newline ++ newline ++
     "Check the latest animated forecast at: https://www.swpc.noaa.gov/products/aurora-30-minute-forecast" ++
     newline ++
     "Raw 3-day text forecast: https://services.swpc.noaa.gov/text/3-day-forecast.txt")%string in
  (subject, body).

(** [send_email_alert(high_kp_periods, local_tz_name_for_display)]. *)
Definition send_email_alert (high_kp_periods : list period)
           (local_tz_name_for_display : string) : list action :=
  match high_kp_periods with
  | [] => [Report (NoPeriodsNoEmail KP_THRESHOLD)]
  | _ :: _ =>
      let bcc_recipients_list := bcc_recipients RECIPIENT_STRING in
      let all_to_addrs := sorted_set (EMAIL_SENDER :: bcc_recipients_list) in
      match all_to_addrs with
      | [] => [Report NoValidRecipients]
      | _ :: _ =>
          let (subject, body) :=
            compose high_kp_periods local_tz_name_for_display in
          let msg := mkemail EMAIL_SENDER EMAIL_SENDER subject body in
          SmtpSession EMAIL_SENDER all_to_addrs msg ::
          match smtp EMAIL_SENDER all_to_addrs msg with
          | Delivered =>
              [Report (EmailSent EMAIL_SENDER (length bcc_recipients_list))]
          | SmtpFailed => [Report EmailError]
          | OtherFailure => [Report EmailUnexpectedError]
          end
      end
  end.

Variable now_year : Z.
Variable now_month : nat -> Z.
Variable strptime_year : string -> string -> option Z.

(** The [__main__] block, given what [get_aurora_forecast()] returned
    ([None] after a request error): the actions of the run and the
    exception that ends it, if any. *)
Definition main (forecast_text : option string) : list action * option exn :=
  match forecast_text with
  | Some text =>
      if is_empty text then ([Report NoForecastData], None)
      else
        let (log, parsed) :=
          parse_forecast now_year now_month strptime_year KP_THRESHOLD
                         text local_tz in
        match parsed with
        | Ok high_kp_periods =>
            (map Report log ++
             send_email_alert high_kp_periods (tz_key local_tz), None)
        | Raise e => (map Report log, Some e)
        end
  | None => ([Report NoForecastData], None)
  end.

End Notifier.

(** ** The settings

    Lines 42-78 of aurora.py: [get_clean_env] and the settings read from
    the environment when the module is loaded.  script.py reads the same
    variables with [os.getenv] alone. *)

Module Settings.

(** [os.environ], as far as it is read. *)
Definition environ : Type := string -> option string.

(** [os.getenv(var_name, default)]. *)
Definition getenv (env : environ) (var_name : string)
           (default : option string) : option string :=
  match env var_name with
  | Some value => Some value
  | None => default
  end.

Fixpoint lstrip_chars (chars : ascii -> bool) (s : string) : string :=
  match s with
  | EmptyString => EmptyString
  | String c r => if chars c then lstrip_chars chars r else s
  end.

Fixpoint rstrip_chars (chars : ascii -> bool) (s : string) : string :=
  match s with
  | EmptyString => EmptyString
  | String c r =>
      let r' := rstrip_chars chars r in
      if chars c && is_empty r' then EmptyString else String c r'
  end.

(** [s.strip(chars)]. *)
Definition strip_chars (chars : ascii -> bool) (s : string) : string :=
  rstrip_chars chars (lstrip_chars chars s).

(** The characters the last [strip] of line 51 removes: the single and
    the double quote. *)
Definition isquote (c : ascii) : bool := (code c =? 39) || (code c =? 34).

Definition ishash (c : ascii) : bool := code c =? 35.

(** Line 51: the text before the first hash sign, stripped of whitespace
    and then of quotes. *)
Definition clean_value (value : string) : string :=
  strip_chars isquote (strip (before "#" value)).

(** [get_clean_env(var_name, default)]; [None] is Python's [None]. *)
Definition get_clean_env (env : environ) (var_name : string)
           (default : option string) : option string :=
  match getenv env var_name default with
  | Some value => Some (clean_value value)
  | None => None
  end.

Record settings : Type := mksettings {
  MAGNETIC_LATITUDE : spec_float;
  MAGNETIC_LONGITUDE : spec_float;
  KP_THRESHOLD : Z;
  EMAIL_SENDER : string;
  EMAIL_PASSWORD : string;
  RECIPIENT_STRING : string;
  SMTP_SERVER : string;
  SMTP_PORT : Z
}.

(** [float(v)] and [int(v)] on what the environment gave: [None] raises
    [TypeError], a malformed text [ValueError]; the [except] clause of
    line 75 takes both, so the two are not told apart. *)
Definition float_setting (v : option string) : option spec_float :=
  match v with
  | Some s => match py_float s with Ok x => Some x | Raise _ => None end
  | None => None
  end.

Definition int_setting (v : option string) : option Z :=
  match v with
  | Some s => match py_int s with Ok n => Some n | Raise _ => None end
  | None => None
  end.

(** Truth value of a setting, as [all] takes it. *)
Definition truthy (v : option string) : bool :=
  match v with
  | Some s => negb (is_empty s)
  | None => false
  end.

(** Lines 58-78, with [get] for the reader of one variable: the settings,
    or [None] where the module reports the error and calls [exit()]. *)
Definition load_settings_with (get : string -> option string -> option string)
  : option settings :=
  match float_setting (get "MAGNETIC_LATITUDE" None) with
  | None => None
  | Some latitude =>
  match float_setting (get "MAGNETIC_LONGITUDE" None) with
  | None => None
  | Some longitude =>
  match int_setting (get "KP_THRESHOLD" (Some "5")) with
  | None => None
  | Some threshold =>
  let sender := get "EMAIL_SENDER" None in
  let password := get "EMAIL_PASSWORD" None in
  let recipient := get "EMAIL_RECIPIENT" None in
  let server := get "SMTP_SERVER" None in
  match int_setting (get "SMTP_PORT" None) with
  | None => None
  | Some port =>
  match sender, password, recipient, server with
  | Some s, Some p, Some r, Some h =>
      if truthy sender && truthy password && truthy recipient &&
         truthy server && negb (port =? 0)
      then Some (mksettings latitude longitude threshold s p r h port)
      else None
  | _, _, _, _ => None
  end end end end end.

(** aurora.py. *)
Definition load_settings (env : environ) : option settings :=
  load_settings_with (get_clean_env env).

(** script.py. *)
Definition load_settings_raw (env : environ) : option settings :=
  load_settings_with (getenv env).

(** The variables read without a default. *)
Definition required_settings : list string :=
  ["MAGNETIC_LATITUDE"; "MAGNETIC_LONGITUDE"; "EMAIL_SENDER";
   "EMAIL_PASSWORD"; "EMAIL_RECIPIENT"; "SMTP_SERVER"; "SMTP_PORT"].

(** No character of the text is a hash sign. *)
Definition no_hash (s : string) : bool :=
  all_chars (fun c => negb (ishash c)) s.

Definition first_char (s : string) : option ascii :=
  match s with
  | EmptyString => None
  | String c _ => Some c
  end.

Fixpoint last_char (s : string) : option ascii :=
  match s with
  | EmptyString => None
  | String c EmptyString => Some c
  | String _ r => last_char r
  end.

(** An environment given by a list of bindings, the first one winning. *)
Fixpoint environ_of (bindings : list (string * string)) : environ :=
  fun var_name =>
    match bindings with
    | [] => None
    | (k, v) :: rest =>
        if (k =? var_name)%string then Some v else environ_of rest var_name
    end.

Definition dquote : string := String (ascii_of_nat 34) EmptyString.

Definition sample_env : environ :=
  environ_of
    [("MAGNETIC_LATITUDE", "64.1  # Reykjavik");
     ("MAGNETIC_LONGITUDE", "'-21.9'");
     ("EMAIL_SENDER", "me@example.org");
     ("EMAIL_PASSWORD", (dquote ++ "secret" ++ dquote ++ "  # app")%string);
     ("EMAIL_RECIPIENT", "you@example.org, them@example.org");
     ("SMTP_SERVER", "smtp.example.org");
     ("SMTP_PORT", "587")].

End Settings.

(** ** Notions used by the statements *)

(** [c] is the (interval, level) cell of the activity table at some data
    row and column: the row is recognised with its start hour and value
    tokens, the token of the column has an integer level, and the interval
    of that hour on the column's forecast date can be built. *)
Definition table_cell (tz : tzinfo) (dates : list date) (rows : list string)
           (c : period) : Prop :=
  exists raw_line start_hour values column kp_str d,
    In raw_line rows /\
    row_fields dates raw_line = Ok (Some (start_hour, values)) /\
    nth_error values column = Some kp_str /\
    nth_error dates column = Some d /\
    kp_index_of kp_str = Ok (period_kp c) /\
    make_period tz d start_hour (period_kp c) = Ok c.

Definition is_blank (l : string) : bool := is_empty (strip l).

Definition has_marker (l : string) : bool := contains marker l.

(** The whitespace-separated tokens of the line number at least 3 and
    begin with a month abbreviation. *)
Definition header_tokens_ok (l : string) : bool :=
  let parts := split (strip l) in
  (3 <=? length parts)%nat &&
  match parts with
  | p :: _ => match month_str_to_int p with Ok _ => true | Raise _ => false end
  | [] => false
  end.

Definition marker_at (lines : list string) (i : nat) : Prop :=
  exists l, nth_error lines i = Some l /\ has_marker l = true.

(** Line [j] is the first line after marker line [i], at most 3 lines
    further, that is not blank. *)
Definition first_nonblank_after (lines : list string) (i j : nat) : Prop :=
  (i < j <= i + 3)%nat /\
  (exists l, nth_error lines j = Some l /\ is_blank l = false) /\
  forall k, (i < k < j)%nat ->
            exists l, nth_error lines k = Some l /\ is_blank l = true.

(** Marker line [i] yields the date header [j] with tokens [parts]. *)
Definition header_for (lines : list string) (i j : nat) (parts : list string)
  : Prop :=
  marker_at lines i /\ first_nonblank_after lines i j /\
  exists l, nth_error lines j = Some l /\ header_tokens_ok l = true /\
            parts = split (strip l).

(** Header discovery as a search for the first line of the window that is
    both non-blank and well-formed, whatever precedes it in the window. *)
Definition selects_first_wellformed_line : Prop :=
  forall lines i j l,
    marker_at lines i ->
    (forall i', (i' < i)%nat -> ~ marker_at lines i') ->
    (i < j <= i + 3)%nat ->
    nth_error lines j = Some l ->
    is_blank l = false -> header_tokens_ok l = true ->
    (forall k l', (i < k < j)%nat -> nth_error lines k = Some l' ->
                  is_blank l' = true \/ header_tokens_ok l' = false) ->
    find_date_header lines = Some (j, split (strip l)).



(** A date of the header, read from the month token at [2 * k] and the day
    token after it while [offset + k] dates were already resolved. *)
Definition resolved_from (now_month : nat -> Z) (current_year : Z)
           (raw : list string) (offset k : nat) (d : date) : Prop :=
  valid_date d = true /\
  year d = year_for_forecast now_month current_year (offset + k) (month d) /\
  exists month_str day_str,
    nth_error raw (2 * k) = Some month_str /\
    nth_error raw (2 * k + 1) = Some day_str /\
    month_str_to_int month_str = Ok (month d) /\
    isdigit day_str = true /\
    py_int day_str = Ok (day d).

(** ** Sample bulletins *)

Module Samples.

Definition no_issue_line : string -> string -> option Z := fun _ _ => None.

Definition issued_2023 : string -> string -> option Z :=
  fun s fmt =>
    if ((s =? "2023 Dec 30 1230") && (fmt =? "%Y %b %d %H%M"))%string
    then Some 2023 else None.

Definition june : nat -> Z := fun _ => 6.
Definition december : nat -> Z := fun _ => 12.

Definition table_header : list string :=
  ["NOAA Kp index breakdown Jan 01-Jan 03 2024";
   "";
   "             Jan 01       Jan 02       Jan 03"].

Definition quiet_then_storm : list string :=
  table_header ++
  ["00-03UT       2.67         5.00         4.00";
   "Rationale: a coronal hole stream arrives on day two.";
   "21-00UT       1.00         4.67         6.33";
   "00-03UT 3 4 7"].

Definition late_row : list string :=
  table_header ++ ["23-02UT       1.00         8.00         2.00"].

Definition new_year_bulletin : list string :=
  [":Issued: 2023 Dec 30 1230 UTC";
   "NOAA Kp index breakdown Dec 30-Jan 01 2024";
   "";
   "             Dec 30       Dec 31       Jan 01";
   "00-03UT       6.00         2.00         5.33"].


Definition header_behind_prose : list string :=
  ["NOAA Kp index breakdown";
   "(values are estimates)";
   "Jan 01 Jan 02 Jan 03";
   "00-03UT 7 7 7"].

Definition two_date_header : list string :=
  ["NOAA Kp index breakdown";
   "Jan 01 Jan 02";
   "00-03UT 7 7 7"].

Definition header_day_beyond_c_int : list string :=
  ["NOAA Kp index breakdown";
   "Jan 2147483648 Jan 02 Jan 03";
   "00-03UT 7 7 7"].

Definition infinite_value : list string :=
  table_header ++
  ["00-03UT       6.00         2.00         2.00";
   "03-06UT       inf          2.00         2.00"].

Definition hour_out_of_range : list string :=
  table_header ++ ["25-28UT 7 7 7"; "03-06UT 5 1 1"].

Definition hour_out_of_range_infinite : list string :=
  table_header ++ ["25-28UT inf 7 7"].

(** The text of a bulletin from its lines. *)
Definition text_of (lines : list string) : string :=
  String.concat newline lines.

Definition jan_01 : date := mkdate 2024 1 1.
Definition jan_02 : date := mkdate 2024 1 2.
Definition jan_03 : date := mkdate 2024 1 3.
Definition jan_04 : date := mkdate 2024 1 4.

(** What [quiet_then_storm] yields at threshold 5. *)
Definition storm_periods : list period :=
  [(mkdatetime jan_02 0, mkdatetime jan_02 3, 5);
   (mkdatetime jan_03 21, mkdatetime jan_04 0, 6);
   (mkdatetime jan_03 0, mkdatetime jan_03 3, 7)].

Definition dec_30 : date := mkdate 2023 12 30.
Definition dec_31 : date := mkdate 2023 12 31.
Definition new_year_day : date := mkdate 2024 1 1.



(** What [late_row] yields at threshold 5. *)
Definition late_period : period :=
  (mkdatetime jan_02 23, mkdatetime jan_03 2, 8).

End Samples.

(** ** Notions used by further statements *)

(** The level of the period is at least [t]. *)
Definition at_least (t : Z) (p : period) : bool := t <=? period_kp p.

(** The year an issue line gives: for a line that starts with [:Issued:],
    the text between its second colon and [ UTC], read in the first layout
    or else in the second; [None] for every other line and for an issue
    line that neither layout reads. *)
Definition issued_line_year (strptime_year : string -> string -> option Z)
           (line : string) : option Z :=
  if startswith ":Issued:" line then
    match nth_error (split_char ":" line) 2 with
    | Some part =>
        match strptime_year (before " UTC" (strip part)) "%Y %b %d %H%M" with
        | Some y => Some y
        | None => strptime_year (before " UTC" (strip part)) "%b %d %H%M %Y"
        end
    | None => None
    end
  else None.

(** An issue line that neither layout reads: the line a warning is made
    about. *)
Definition unread_issue_line (strptime_year : string -> string -> option Z)
           (line : string) : bool :=
  startswith ":Issued:" line &&
  match nth_error (split_char ":" line) 2 with
  | Some _ => true
  | None => false
  end &&
  match issued_line_year strptime_year line with
  | Some _ => false
  | None => true
  end.

(** The body of the alert before and after the lines of the periods. *)
Definition alert_body_head (threshold : Z)
           (local_tz_name_for_display : string) : string :=
  ("High aurora activity is forecasted. Times are displayed in " ++
   local_tz_name_for_display ++ "." ++ newline ++
   "Alert triggered for Kp-index of " ++ str_of_int threshold ++
   " or greater:" ++ newline ++ newline)%string.

Definition alert_body_tail (latitude longitude : string) : string :=
  (newline ++
   "This alert was triggered based on settings for magnetic latitude ~" ++
   latitude ++ degree ++ " and longitude ~" ++
   longitude ++ degree ++ "." ++
   newline ++ newline ++
   "Check the latest animated forecast at: https://www.swpc.noaa.gov/products/aurora-30-minute-forecast" ++
   newline ++
   "Raw 3-day text forecast: https://services.swpc.noaa.gov/text/3-day-forecast.txt")%string.


Definition key_le {A : Type} (key : A -> Z) (a b : A) : Prop :=
  key a <= key b.

(** ** Facts about the embedding *)

Lemma bind_ok {A B : Type} (r : result A) (k : A -> result B) (b : B) :
  bind r k = Ok b -> exists a, r = Ok a /\ k a = Ok b.
Proof.
  destruct r as [a | e]; simpl; intros H; [exists a; auto | discriminate].
Qed.

Ltac bind_inv H :=
  let a := fresh "a" in
  let Ha := fresh "Ha" in
  apply bind_ok in H; destruct H as (a & Ha & H).

(** *** The calendar *)

Lemma fold_days_app (y : Z) (ks : list Z) (k : Z) :
  fold_right (fun k acc => days_in_month y k + acc) 0 (ks ++ [k])
  = fold_right (fun k acc => days_in_month y k + acc) 0 ks + days_in_month y k.
Proof.
  induction ks as [| a ks IH]; simpl; [lia | rewrite IH; lia].
Qed.

Lemma days_before_month_succ (y m : Z) :
  1 <= m ->
  days_before_month y (m + 1) = days_before_month y m + days_in_month y m.
Proof.
  intros Hm. unfold days_before_month.
  replace (Z.to_nat (m + 1 - 1)) with (S (Z.to_nat (m - 1))) by lia.
  rewrite seq_S, map_app. simpl map. rewrite fold_days_app.
  do 2 f_equal. lia.
Qed.

Lemma days_before_january (y : Z) : days_before_month y 1 = 0.
Proof. reflexivity. Qed.

Lemma year_length (y : Z) :
  days_before_month y 13 = if is_leap y then 366 else 365.
Proof.
  unfold days_before_month, days_in_month. simpl.
  destruct (is_leap y); reflexivity.
Qed.

Lemma days_before_year_succ (y : Z) :
  days_before_year (y + 1)
  = days_before_year y + (if is_leap y then 366 else 365).
Proof.
  unfold days_before_year, is_leap.
  replace (y + 1 - 1) with y by lia.
  destruct (y mod 4 =? 0) eqn:E4; destruct (y mod 100 =? 0) eqn:E100;
    destruct (y mod 400 =? 0) eqn:E400; simpl;
    rewrite ?Z.eqb_eq, ?Z.eqb_neq in *;
    Z.div_mod_to_equations; lia.
Qed.

Lemma valid_date_bounds (d : date) :
  valid_date d = true ->
  1 <= year d <= 9999 /\ 1 <= month d <= 12 /\
  1 <= day d <= days_in_month (year d) (month d).
Proof.
  unfold valid_date, MINYEAR, MAXYEAR. rewrite !andb_true_iff, !Z.leb_le. lia.
Qed.

Lemma toordinal_next_day (d : date) :
  valid_date d = true -> toordinal (next_day d) = toordinal d + 1.
Proof.
  intros Hv. apply valid_date_bounds in Hv. destruct Hv as (_ & Hm & Hd).
  unfold next_day, toordinal.
  destruct (day d <? days_in_month (year d) (month d)) eqn:Hlt; simpl.
  - lia.
  - apply Z.ltb_ge in Hlt.
    destruct (month d <? 12) eqn:Hm12; simpl.
    + rewrite days_before_month_succ by lia. lia.
    + apply Z.ltb_ge in Hm12.
      assert (Hdec : month d = 12) by lia.
      rewrite days_before_year_succ, days_before_january.
      pose proof (days_before_month_succ (year d) 12 ltac:(lia)) as H13.
      change (12 + 1) with 13 in H13. rewrite year_length in H13.
      rewrite Hdec in *. lia.
Qed.

Lemma add_hours_3 (d : date) (h : Z) (e : datetime) :
  0 <= h <= 23 ->
  add_hours (mkdatetime d h) 3 = Ok e ->
  (h < 21 /\ e = mkdatetime d (h + 3)) \/
  (21 <= h /\ e = mkdatetime (next_day d) (h - 21)).
Proof.
  intros Hh. unfold add_hours. simpl dt_hour. simpl dt_date.
  destruct (Z_lt_ge_dec h 21) as [Hlt | Hge].
  - rewrite Z.div_small by lia. simpl.
    rewrite Z.mod_small by lia. intros H; inversion H. left.
    split; [lia | reflexivity].
  - replace ((h + 3) / 24) with 1 by (Z.div_mod_to_equations; lia).
    replace ((h + 3) mod 24) with (h - 21) by (Z.div_mod_to_equations; lia).
    simpl. destruct (date_eqb d date_max); simpl; [discriminate |].
    intros H; inversion H. right. split; [lia | reflexivity].
Qed.

Lemma add_hours_3_elapsed (d : date) (h : Z) (e : datetime) :
  valid_date d = true -> 0 <= h <= 23 ->
  add_hours (mkdatetime d h) 3 = Ok e ->
  hours_of e = hours_of (mkdatetime d h) + 3.
Proof.
  intros Hv Hh Hadd.
  destruct (add_hours_3 d h e Hh Hadd) as [[_ ->] | [_ ->]];
    unfold hours_of; simpl.
  - lia.
  - rewrite toordinal_next_day by assumption. lia.
Qed.

Lemma new_time_ok (h t : Z) : new_time h = Ok t -> t = h /\ 0 <= h <= 23.
Proof.
  unfold new_time. destruct (negb (fits_c_int h)); [discriminate |].
  destruct ((0 <=? h) && (h <=? 23)) eqn:E; [| discriminate].
  apply andb_true_iff in E. rewrite !Z.leb_le in E.
  intros H; inversion H. lia.
Qed.

Lemma astimezone_ok (dt dt' : datetime) (tz : tzinfo) :
  astimezone dt tz = Ok dt' -> dt' = dt.
Proof.
  unfold astimezone.
  destruct ((min_minutes <=? wall_minutes tz dt) &&
            (wall_minutes tz dt <? end_minutes));
    [intros H; inversion H; reflexivity | discriminate].
Qed.

Lemma make_period_ok (tz : tzinfo) (d : date) (h k : Z) (p : period) :
  make_period tz d h k = Ok p ->
  0 <= h <= 23 /\
  exists e, add_hours (mkdatetime d h) 3 = Ok e /\ p = (mkdatetime d h, e, k).
Proof.
  unfold make_period. intros H.
  bind_inv H. apply new_time_ok in Ha. destruct Ha as [-> Hh].
  bind_inv H. unfold combine in *.
  bind_inv H. apply astimezone_ok in Ha0. subst.
  bind_inv H. apply astimezone_ok in Ha0. subst.
  inversion H. split; [assumption |].
  eexists; split; [eassumption | reflexivity].
Qed.

(** *** The rows of the table *)

Section RowFacts.

Variable KP_THRESHOLD : Z.
Variable tz : tzinfo.
Variable dates : list date.

Lemma make_period_kp (d : date) (h k : Z) (p : period) :
  make_period tz d h k = Ok p -> period_kp p = k.
Proof.
  intros H. apply make_period_ok in H. destruct H as (_ & e & _ & ->).
  reflexivity.
Qed.

(** What a value contributes when reading it raises nothing. *)
Lemma try_value_ok (h : Z) (i : nat) (kp_str : string) (ps : list period) :
  try_value KP_THRESHOLD tz dates h i kp_str = Ok ps ->
  exists k, kp_index_of kp_str = Ok k /\
    ((KP_THRESHOLD <= k /\
      exists d p, nth_error dates i = Some d /\
                  make_period tz d h k = Ok p /\ ps = [p]) \/
     (k < KP_THRESHOLD /\ ps = [])).
Proof.
  unfold try_value. intros H.
  bind_inv H. exists a. split; [assumption |].
  destruct (KP_THRESHOLD <=? a) eqn:E.
  - apply Z.leb_le in E. left. split; [assumption |].
    bind_inv H. unfold index in Ha0.
    destruct (nth_error dates i) as [d |] eqn:Hd; [| discriminate].
    inversion Ha0; subst a0.
    bind_inv H. inversion H. exists d, a0. auto.
  - apply Z.leb_gt in E. right. inversion H. auto.
Qed.

Lemma try_value_emits (h : Z) (i : nat) (kp_str : string) (d : date)
      (p : period) :
  kp_index_of kp_str = Ok (period_kp p) ->
  KP_THRESHOLD <= period_kp p ->
  nth_error dates i = Some d ->
  make_period tz d h (period_kp p) = Ok p ->
  try_value KP_THRESHOLD tz dates h i kp_str = Ok [p].
Proof.
  intros Hk Hge Hd Hp. unfold try_value.
  rewrite Hk. simpl.
  apply Z.leb_le in Hge. rewrite Hge.
  unfold index. rewrite Hd. simpl. rewrite Hp. reflexivity.
Qed.

Lemma kp_loop_sound (h : Z) (values : list string) :
  forall (i : nat) (out : list period),
    kp_loop KP_THRESHOLD tz dates h i values = Ok out ->
    forall p, In p out ->
      exists n kp_str d,
        nth_error values n = Some kp_str /\
        nth_error dates (i + n) = Some d /\
        kp_index_of kp_str = Ok (period_kp p) /\
        KP_THRESHOLD <= period_kp p /\
        make_period tz d h (period_kp p) = Ok p.
Proof.
  induction values as [| kp_str rest IH]; intros i out H p Hin.
  - inversion H; subst. contradiction.
  - simpl in H.
    destruct (length dates <=? i)%nat.
    { inversion H; subst. contradiction. }
    assert (Hrest : forall out',
               kp_loop KP_THRESHOLD tz dates h (S i) rest = Ok out' ->
                    In p out' ->
                    exists n kp_str0 d,
                      nth_error (kp_str :: rest) n = Some kp_str0 /\
                      nth_error dates (i + n) = Some d /\
                      kp_index_of kp_str0 = Ok (period_kp p) /\
                      KP_THRESHOLD <= period_kp p /\
                      make_period tz d h (period_kp p) = Ok p).
    { intros out' H' Hin'.
      destruct (IH (S i) out' H' p Hin') as (n & s & d & Hn & Hd & Hrest).
      exists (S n), s, d. split; [exact Hn |].
      split; [| exact Hrest].
      replace (i + S n)%nat with (S i + n)%nat by lia. exact Hd. }
    destruct (try_value KP_THRESHOLD tz dates h i kp_str) as [ps | e] eqn:Hv.
    + bind_inv H. inversion H; subst out.
      apply in_app_or in Hin. destruct Hin as [Hin | Hin].
      * apply try_value_ok in Hv.
        destruct Hv as (k & Hk & [(Hge & d & q & Hd & Hq & ->) | (_ & ->)]);
          [| contradiction].
        destruct Hin as [<- | []].
        pose proof (make_period_kp _ _ _ _ Hq) as Hkp.
        exists 0%nat, kp_str, d. rewrite Nat.add_0_r, Hkp. simpl. auto.
      * eauto.
    + destruct e; try discriminate. eauto.
Qed.

Lemma kp_loop_complete (h : Z) (values : list string) :
  forall (i : nat) (out : list period),
    kp_loop KP_THRESHOLD tz dates h i values = Ok out ->
    forall n kp_str d p,
      nth_error values n = Some kp_str ->
      nth_error dates (i + n) = Some d ->
      kp_index_of kp_str = Ok (period_kp p) ->
      KP_THRESHOLD <= period_kp p ->
      make_period tz d h (period_kp p) = Ok p ->
      In p out.
Proof.
  induction values as [| v rest IH];
    intros i out H n kp_str d p Hn Hd Hk Hge Hp.
  - destruct n; discriminate.
  - simpl in H.
    assert (Hi : (length dates <=? i)%nat = false).
    { apply Nat.leb_gt.
      assert (i + n < length dates)%nat
        by (apply nth_error_Some; rewrite Hd; discriminate).
      lia. }
    rewrite Hi in H.
    destruct n as [| n].
    + simpl in Hn. inversion Hn; subst v.
      rewrite Nat.add_0_r in Hd.
      pose proof (try_value_emits h i kp_str d p Hk Hge Hd Hp) as Hv.
      rewrite Hv in H.
      bind_inv H. inversion H. simpl. auto.
    + simpl in Hn.
      replace (i + S n)%nat with (S i + n)%nat in Hd by lia.
      destruct (try_value KP_THRESHOLD tz dates h i v) as [ps | e].
      * bind_inv H. inversion H. apply in_or_app. right.
        eapply IH; eauto.
      * destruct e; try discriminate. eapply IH; eauto.
Qed.

Lemma process_row_sound (raw_line : string) (out : list period) :
  process_row KP_THRESHOLD tz dates raw_line = Ok out ->
  forall p, In p out ->
    exists start_hour values column kp_str d,
      row_fields dates raw_line = Ok (Some (start_hour, values)) /\
      nth_error values column = Some kp_str /\
      nth_error dates column = Some d /\
      kp_index_of kp_str = Ok (period_kp p) /\
      KP_THRESHOLD <= period_kp p /\
      make_period tz d start_hour (period_kp p) = Ok p.
Proof.
  unfold process_row. intros H p Hin.
  bind_inv H. destruct a as [[h values] |].
  - destruct (kp_loop_sound h values 0 out H p Hin)
      as (n & s & d & Hn & Hd & Hrest).
    exists h, values, n, s, d. simpl in Hd. auto.
  - inversion H; subst. contradiction.
Qed.

Lemma process_row_complete (raw_line : string) (out : list period) :
  process_row KP_THRESHOLD tz dates raw_line = Ok out ->
  forall start_hour values column kp_str d p,
    row_fields dates raw_line = Ok (Some (start_hour, values)) ->
    nth_error values column = Some kp_str ->
    nth_error dates column = Some d ->
    kp_index_of kp_str = Ok (period_kp p) ->
    KP_THRESHOLD <= period_kp p ->
    make_period tz d start_hour (period_kp p) = Ok p ->
    In p out.
Proof.
  unfold process_row.
  intros H h values n s d p Hf Hn Hd Hk Hge Hp.
  rewrite Hf in H. simpl in H.
  eapply (kp_loop_complete h values 0 out H n s d p); eauto.
Qed.

Lemma scan_rows_app (rows1 rows2 : list string) (out : list period) :
  scan_rows KP_THRESHOLD tz dates (rows1 ++ rows2) = Ok out ->
  exists out1 out2,
    scan_rows KP_THRESHOLD tz dates rows1 = Ok out1 /\
    scan_rows KP_THRESHOLD tz dates rows2 = Ok out2 /\
    out = out1 ++ out2.
Proof.
  revert out. induction rows1 as [| l rows1 IH]; intros out H.
  - exists [], out. auto.
  - simpl in H. bind_inv H. bind_inv H.
    inversion H; subst out.
    destruct (IH a0 Ha0) as (o1 & o2 & H1 & H2 & ->).
    exists (a ++ o1), o2. simpl. rewrite Ha, H1. simpl.
    rewrite app_assoc. auto.
Qed.

Lemma scan_rows_cons (l : string) (rows : list string) (out : list period) :
  scan_rows KP_THRESHOLD tz dates (l :: rows) = Ok out ->
  exists out1 out2,
    process_row KP_THRESHOLD tz dates l = Ok out1 /\
    scan_rows KP_THRESHOLD tz dates rows = Ok out2 /\
    out = out1 ++ out2.
Proof.
  simpl. intros H. bind_inv H. bind_inv H.
  inversion H. eauto.
Qed.

(** The periods returned are the table cells at or above the
    threshold. *)
Lemma scan_rows_cells (rows : list string) :
  forall out, scan_rows KP_THRESHOLD tz dates rows = Ok out ->
    forall c, In c out <->
              (table_cell tz dates rows c /\ KP_THRESHOLD <= period_kp c).
Proof.
  induction rows as [| l rows IH]; intros out H c.
  - inversion H; subst. split; [contradiction |].
    intros [(x & _ & _ & _ & _ & _ & [] & _) _].
  - apply scan_rows_cons in H. destruct H as (o1 & o2 & H1 & H2 & ->).
    split.
    + intros Hin. apply in_app_or in Hin. destruct Hin as [Hin | Hin].
      * destruct (process_row_sound l o1 H1 c Hin)
          as (h & values & n & s & d & Hf & Hn & Hd & Hk & Hge & Hp).
        split; [| assumption].
        exists l, h, values, n, s, d. simpl. auto 10.
      * apply (IH o2 H2) in Hin. destruct Hin as [Hcell Hge].
        split; [| assumption].
        destruct Hcell as (l' & h & values & n & s & d & Hl & Hrest).
        exists l', h, values, n, s, d. simpl. auto.
    + intros [(l' & h & values & n & s & d & Hl & Hf & Hn & Hd & Hk & Hp) Hge].
      apply in_or_app. destruct Hl as [<- | Hl].
      * left. eapply process_row_complete; eauto.
      * right. apply (IH o2 H2). split; [| assumption].
        exists l', h, values, n, s, d. auto 10.
Qed.

End RowFacts.

(** *** The date header *)

Lemma new_date_ok (y m d : Z) (dt : date) :
  new_date y m d = Ok dt -> dt = mkdate y m d /\ valid_date dt = true.
Proof.
  unfold new_date.
  destruct (negb (fits_c_int y && fits_c_int m && fits_c_int d));
    [discriminate |].
  destruct (valid_date (mkdate y m d)) eqn:Hv; [| discriminate].
  intros H; inversion H; subst. auto.
Qed.

Lemma date_loop_spec (now_month : nat -> Z) (current_year : Z) (n : nat) :
  forall raw acc dates,
    (length raw <= n)%nat ->
    date_loop now_month current_year raw acc = Ok dates ->
    exists extra,
      dates = acc ++ extra /\
      forall k d, nth_error extra k = Some d ->
                  resolved_from now_month current_year raw (length acc) k d.
Proof.
  induction n as [| n IH]; intros raw acc dates Hlen H.
  - destruct raw; [| simpl in Hlen; lia].
    simpl in H. inversion H; subst. exists []. rewrite app_nil_r.
    split; [reflexivity |]. intros [| k] d Hk; discriminate.
  - destruct raw as [| month_str raw1].
    { simpl in H. inversion H; subst. exists []. rewrite app_nil_r.
      split; [reflexivity |]. intros [| k] d Hk; discriminate. }
    cbn [date_loop] in H.
    destruct (3 <=? length acc)%nat.
    { inversion H; subst. exists []. rewrite app_nil_r.
      split; [reflexivity |]. intros [| k] d Hk; discriminate. }
    bind_inv H. rename a into m.
    destruct raw1 as [| day_str raw2]; [discriminate |].
    destruct (isdigit day_str) eqn:Hdig; [| discriminate].
    bind_inv H. rename a into dd.
    bind_inv H. rename a into dt.
    apply new_date_ok in Ha1. destruct Ha1 as [Hdt Hvalid].
    assert (Hlen2 : (length raw2 <= n)%nat) by (simpl in Hlen; lia).
    destruct (IH raw2 (acc ++ [dt]) dates Hlen2 H) as (extra & -> & Hextra).
    exists (dt :: extra). rewrite <- app_assoc. split; [reflexivity |].
    intros [| k] d Hk.
    + simpl in Hk. inversion Hk; subst d. subst dt.
      split; [exact Hvalid |]. simpl. rewrite Nat.add_0_r.
      split; [reflexivity |].
      exists month_str, day_str. simpl. auto.
    + simpl in Hk. apply Hextra in Hk.
      destruct Hk as (Hv & Hy & ms & ds & Hm & Hd & Hrest).
      split; [exact Hv |]. split.
      * rewrite Hy. f_equal. rewrite length_app. simpl. lia.
      * exists ms, ds.
        replace (2 * S k)%nat with (S (S (2 * k))) by lia.
        replace (S (S (2 * k)) + 1)%nat with (S (S (2 * k + 1))) by lia.
        simpl nth_error. auto.
Qed.

Section ParseFacts.

Variable now_year : Z.
Variable now_month : nat -> Z.
Variable strptime_year : string -> string -> option Z.
Variable KP_THRESHOLD : Z.

Lemma forecast_dates_some (lines : list string) (idx : nat)
      (dates : list date) :
  forecast_dates now_year now_month strptime_year lines = Some (idx, dates) ->
  exists raw,
    find_date_header lines = Some (idx, raw) /\
    decode_dates now_month (fst (resolve_year now_year strptime_year lines))
                 raw = Ok dates /\
    length dates = 3%nat.
Proof.
  unfold forecast_dates.
  destruct (find_date_header lines) as [[i raw] |]; [| discriminate].
  destruct (decode_dates _ _ raw) as [ds | e] eqn:Hd; [| discriminate].
  destruct (length ds =? 3)%nat eqn:Hl; [| discriminate].
  intros H; inversion H; subst. apply Nat.eqb_eq in Hl. eauto.
Qed.

Lemma forecast_dates_resolved (lines : list string) (idx : nat)
      (dates : list date) :
  forecast_dates now_year now_month strptime_year lines = Some (idx, dates) ->
  forall k d, nth_error dates k = Some d ->
    exists raw,
      find_date_header lines = Some (idx, raw) /\
      resolved_from now_month
                    (fst (resolve_year now_year strptime_year lines))
                    raw 0 k d.
Proof.
  intros H k d Hk. apply forecast_dates_some in H.
  destruct H as (raw & Hfind & Hdec & _). exists raw. split; [exact Hfind |].
  unfold decode_dates in Hdec.
  destruct (date_loop_spec now_month _ (length raw) raw [] dates
                           (Nat.le_refl _) Hdec) as (extra & -> & Hextra).
  simpl in Hk. apply Hextra in Hk. exact Hk.
Qed.

Lemma parse_lines_resolved (lines : list string) (tz : tzinfo) (idx : nat)
      (dates : list date) :
  forecast_dates now_year now_month strptime_year lines = Some (idx, dates) ->
  parse_lines now_year now_month strptime_year KP_THRESHOLD lines tz
  = (snd (resolve_year now_year strptime_year lines),
     scan_rows KP_THRESHOLD tz dates (skipn (S idx) lines)).
Proof.
  intros H. apply forecast_dates_some in H.
  destruct H as (raw & Hfind & Hdec & Hlen).
  unfold parse_lines.
  destruct (resolve_year now_year strptime_year lines) as [cy log].
  simpl in Hdec. rewrite Hfind, Hdec, Hlen. reflexivity.
Qed.

(** A parse that returns periods has resolved its three dates. *)
Lemma parse_lines_nonempty (lines : list string) (tz : tzinfo)
      (log : list report) (recs : list period) :
  parse_lines now_year now_month strptime_year KP_THRESHOLD lines tz
  = (log, Ok recs) ->
  recs <> [] ->
  exists idx dates,
    forecast_dates now_year now_month strptime_year lines
    = Some (idx, dates).
Proof.
  unfold parse_lines, forecast_dates.
  destruct (resolve_year now_year strptime_year lines) as [cy log0]. simpl.
  destruct (find_date_header lines) as [[idx raw] |].
  - destruct (decode_dates now_month cy raw) as [ds | e].
    + destruct (length ds =? 3)%nat; simpl.
      * intros _ _. eauto.
      * intros H Hne. inversion H; subst. contradiction.
    + destruct e; intros H Hne; inversion H; subst; contradiction.
  - intros H Hne. inversion H; subst. contradiction.
Qed.

Lemma splitlines_empty : splitlines EmptyString = [].
Proof. reflexivity. Qed.

Lemma parse_forecast_lines (text : string) (tz : tzinfo) :
  forall idx dates,
    forecast_dates now_year now_month strptime_year (splitlines text)
    = Some (idx, dates) ->
    parse_forecast now_year now_month strptime_year KP_THRESHOLD text tz
    = parse_lines now_year now_month strptime_year KP_THRESHOLD
                  (splitlines text) tz.
Proof.
  intros idx dates H. unfold parse_forecast.
  destruct text; [discriminate | reflexivity].
Qed.

Lemma parse_forecast_nonempty (text : string) (tz : tzinfo)
      (log : list report) (recs : list period) :
  parse_forecast now_year now_month strptime_year KP_THRESHOLD text tz
  = (log, Ok recs) ->
  recs <> [] ->
  exists idx dates,
    forecast_dates now_year now_month strptime_year (splitlines text)
    = Some (idx, dates).
Proof.
  unfold parse_forecast. destruct (is_empty text).
  - intros H Hne. inversion H; subst. contradiction.
  - apply parse_lines_nonempty.
Qed.

Lemma parse_forecast_rows (text : string) (tz : tzinfo) (idx : nat)
      (dates : list date) (log : list report) (recs : list period) :
  forecast_dates now_year now_month strptime_year (splitlines text)
  = Some (idx, dates) ->
  parse_forecast now_year now_month strptime_year KP_THRESHOLD text tz
  = (log, Ok recs) ->
  scan_rows KP_THRESHOLD tz dates (skipn (S idx) (splitlines text)) = Ok recs.
Proof.
  intros Hd H. rewrite (parse_forecast_lines text tz idx dates Hd) in H.
  rewrite (parse_lines_resolved _ tz idx dates Hd) in H.
  inversion H. reflexivity.
Qed.

End ParseFacts.

(** *** Exceptions while the header is decoded *)

Lemma lookup_in (k : string) (table : list (string * Z)) (v : Z) :
  lookup k table = Some v -> In (k, v) table.
Proof.
  induction table as [| [k' v'] rest IH]; simpl; [discriminate |].
  destruct (String.eqb_spec k k') as [-> | Hne].
  - intros H; inversion H; auto.
  - auto.
Qed.


Lemma py_int_raise (s : string) (e : exn) :
  py_int s = Raise e -> e = ValueError.
Proof.
  unfold py_int. destruct (take_sign (strip s)) as [neg body].
  destruct (digitpart body) as [[ds [| c r]] |]; try congruence.
  destruct (int_max_str_digits <? String.length ds)%nat; congruence.
Qed.

Lemma month_str_to_int_raise (s : string) (e : exn) :
  month_str_to_int s = Raise e -> e = ValueError.
Proof.
  unfold month_str_to_int.
  destruct (lookup (lower (strip s)) month_abbr); congruence.
Qed.



(** *** The issue line *)

Lemma issued_scan_step (strptime_year : string -> string -> option Z)
      (line : string) (rest : list string) :
  issued_scan strptime_year (line :: rest)
  = match issued_line_year strptime_year line with
    | Some y => (Some y, [])
    | None =>
        (fst (issued_scan strptime_year rest),
         if unread_issue_line strptime_year line
         then IssuedLineNotParsed line :: snd (issued_scan strptime_year rest)
         else snd (issued_scan strptime_year rest))
    end.
Proof.
  cbn [issued_scan]. unfold unread_issue_line, issued_line_year.
  destruct (startswith ":Issued:" line);
    [| destruct (issued_scan strptime_year rest); reflexivity].
  destruct (nth_error (split_char ":" line) 2) as [part |];
    [| destruct (issued_scan strptime_year rest); reflexivity].
  destruct (strptime_year (before " UTC" (strip part)) "%Y %b %d %H%M");
    [reflexivity |].
  destruct (strptime_year (before " UTC" (strip part)) "%b %d %H%M %Y");
    [reflexivity |].
  destruct (issued_scan strptime_year rest); reflexivity.
Qed.

(** No line is read: a warning for each issue line, and no year. *)
Lemma issued_scan_none (strptime_year : string -> string -> option Z)
      (lines : list string) :
  (forall l, In l lines -> issued_line_year strptime_year l = None) ->
  issued_scan strptime_year lines
  = (None, map IssuedLineNotParsed
               (filter (unread_issue_line strptime_year) lines)).
Proof.
  induction lines as [| line rest IH]; intros Hnone; [reflexivity |].
  rewrite issued_scan_step, (Hnone line (or_introl eq_refl)).
  rewrite IH by (intros l Hl; apply Hnone; right; exact Hl).
  cbn [fst snd filter].
  destruct (unread_issue_line strptime_year line); reflexivity.
Qed.

(** The first line that is read gives the year; the lines after it are
    not looked at. *)
Lemma issued_scan_first (strptime_year : string -> string -> option Z)
      (before_it : list string) (line : string) (after_it : list string)
      (y : Z) :
  (forall l, In l before_it -> issued_line_year strptime_year l = None) ->
  issued_line_year strptime_year line = Some y ->
  issued_scan strptime_year (before_it ++ line :: after_it)
  = (Some y, map IssuedLineNotParsed
                 (filter (unread_issue_line strptime_year) before_it)).
Proof.
  induction before_it as [| l0 rest IH]; intros Hnone Hline.
  - cbn [app]. rewrite issued_scan_step, Hline. reflexivity.
  - cbn [app]. rewrite issued_scan_step, (Hnone l0 (or_introl eq_refl)).
    rewrite IH by (try (intros l Hl; apply Hnone; right; exact Hl); exact Hline).
    cbn [fst snd filter].
    destruct (unread_issue_line strptime_year l0); reflexivity.
Qed.

(** ** The claims *)

(** *** Threshold *)

(** C1.  On a parsed bulletin, a cell of the activity table (an interval
    with its integer level) is among the returned periods exactly when its
    level is at least the threshold; a level equal to the threshold is
    included, a level one below it is not. *)
Theorem threshold_inclusion
        (now_year : Z) (now_month : nat -> Z)
        (strptime_year : string -> string -> option Z) (KP_THRESHOLD : Z)
        (text : string) (tz : tzinfo) (idx : nat) (dates : list date)
        (log : list report) (recs : list period) :
  forecast_dates now_year now_month strptime_year (splitlines text)
  = Some (idx, dates) ->
  parse_forecast now_year now_month strptime_year KP_THRESHOLD text tz
  = (log, Ok recs) ->
  forall c, table_cell tz dates (skipn (S idx) (splitlines text)) c ->
    (In c recs <-> KP_THRESHOLD <= period_kp c) /\
    (period_kp c = KP_THRESHOLD -> In c recs) /\
    (period_kp c = KP_THRESHOLD - 1 -> ~ In c recs).
Proof.
  intros Hdates Hparse c Hcell.
  pose proof (parse_forecast_rows _ _ _ _ _ _ _ _ _ _ Hdates Hparse) as Hrows.
  pose proof (scan_rows_cells _ _ _ _ _ Hrows c) as Hiff.
  assert (Hmain : In c recs <-> KP_THRESHOLD <= period_kp c)
    by (rewrite Hiff; tauto).
  split; [exact Hmain |]. split.
  - intros Heq. apply Hmain. lia.
  - intros Heq Hin. apply Hmain in Hin. lia.
Qed.

Lemma threshold_inclusion_witness :
  In (mkdatetime Samples.jan_02 0, mkdatetime Samples.jan_02 3, 5)
     Samples.storm_periods /\
  ~ In (mkdatetime Samples.jan_03 0, mkdatetime Samples.jan_03 3, 4)
       Samples.storm_periods.
Proof.
  assert (Hdates :
    forecast_dates 2024 Samples.june Samples.no_issue_line
                   (splitlines (Samples.text_of Samples.quiet_then_storm))
    = Some (2%nat, [Samples.jan_01; Samples.jan_02; Samples.jan_03]))
    by (vm_compute; reflexivity).
  assert (Hparse :
    parse_forecast 2024 Samples.june Samples.no_issue_line 5
                   (Samples.text_of Samples.quiet_then_storm) UTC_TZ
    = ([IssuedYearNotFound 2024], Ok Samples.storm_periods))
    by (vm_compute; reflexivity).
  split.
  - apply (threshold_inclusion _ _ _ _ _ _ _ _ _ _ Hdates Hparse);
      [| reflexivity].
    exists "00-03UT       2.67         5.00         4.00", 0,
           ["2.67"; "5.00"; "4.00"], 1%nat, "5.00", Samples.jan_02.
    repeat split; try (vm_compute; reflexivity).
    vm_compute. auto.
  - apply (threshold_inclusion _ _ _ _ _ _ _ _ _ _ Hdates Hparse);
      [| reflexivity].
    exists "00-03UT       2.67         5.00         4.00", 0,
           ["2.67"; "5.00"; "4.00"], 2%nat, "4.00", Samples.jan_03.
    repeat split; try (vm_compute; reflexivity).
    vm_compute. auto.
Defined.

(** *** One row *)

Lemma row_00_03_fields (D0 D1 D2 : date) :
  row_fields [D0; D1; D2] "00-03UT 3 4 7" = Ok (Some (0, ["3"; "4"; "7"])).
Proof. vm_compute. reflexivity. Qed.

Lemma row_00_03_levels :
  kp_index_of "3" = Ok 3 /\ kp_index_of "4" = Ok 4 /\ kp_index_of "7" = Ok 7.
Proof. vm_compute. auto. Qed.

Lemma row_00_03_periods (tz : tzinfo) (D0 D1 D2 : date) :
  process_row 5 tz [D0; D1; D2] "00-03UT 3 4 7"
  = (local_start_dt <- astimezone (mkdatetime D2 0) tz ;;
     local_end_dt <- astimezone (mkdatetime D2 3) tz ;;
     Ok [(local_start_dt, local_end_dt, 7)]).
Proof.
  destruct row_00_03_levels as (H3 & H4 & H7).
  unfold process_row. rewrite row_00_03_fields.
  cbn [bind kp_loop length Nat.leb]. unfold try_value.
  rewrite H3, H4, H7. cbn [bind Z.leb Z.compare Pos.compare Pos.compare_cont].
  cbn [index nth_error bind app].
  unfold make_period, add_hours, combine.
  change (new_time 0) with (@Ok Z 0). cbn [bind dt_hour dt_date].
  change (Z.to_nat ((0 + 3) / 24)) with 0%nat.
  change ((0 + 3) mod 24) with 3. cbn [add_days bind].
  unfold astimezone.
  destruct ((min_minutes <=? wall_minutes tz (mkdatetime D2 0)) &&
            (wall_minutes tz (mkdatetime D2 0) <? end_minutes));
    [| reflexivity].
  cbn [bind].
  destruct ((min_minutes <=? wall_minutes tz (mkdatetime D2 3)) &&
            (wall_minutes tz (mkdatetime D2 3) <? end_minutes));
    reflexivity.
Qed.

(** C2.  With resolved dates D0, D1, D2 and threshold 5, the data row
    "00-03UT 3 4 7" yields exactly one period: level 7, from 00:00 UTC to
    03:00 UTC on D2 (column 2).  In the list returned it stands between the
    periods of the rows before it and those of the rows after it. *)
Theorem row_yields_third_column
        (now_year : Z) (now_month : nat -> Z)
        (strptime_year : string -> string -> option Z)
        (text : string) (tz : tzinfo) (idx : nat) (D0 D1 D2 : date)
        (rows_before rows_after : list string)
        (log : list report) (recs : list period) :
  forecast_dates now_year now_month strptime_year (splitlines text)
  = Some (idx, [D0; D1; D2]) ->
  skipn (S idx) (splitlines text)
  = rows_before ++ "00-03UT 3 4 7" :: rows_after ->
  parse_forecast now_year now_month strptime_year 5 text tz = (log, Ok recs) ->
  process_row 5 tz [D0; D1; D2] "00-03UT 3 4 7"
  = Ok [(mkdatetime D2 0, mkdatetime D2 3, 7)] /\
  exists recs_before recs_after,
    scan_rows 5 tz [D0; D1; D2] rows_before = Ok recs_before /\
    scan_rows 5 tz [D0; D1; D2] rows_after = Ok recs_after /\
    recs = recs_before ++ [(mkdatetime D2 0, mkdatetime D2 3, 7)] ++ recs_after.
Proof.
  intros Hdates Hrows Hparse.
  pose proof (parse_forecast_rows _ _ _ _ _ _ _ _ _ _ Hdates Hparse) as Hscan.
  rewrite Hrows in Hscan.
  apply scan_rows_app in Hscan.
  destruct Hscan as (recs_before & tail & Hbefore & Htail & ->).
  apply scan_rows_cons in Htail.
  destruct Htail as (here & recs_after & Hhere & Hafter & ->).
  assert (Hrow : process_row 5 tz [D0; D1; D2] "00-03UT 3 4 7"
                 = Ok [(mkdatetime D2 0, mkdatetime D2 3, 7)]).
  { rewrite row_00_03_periods in Hhere |- *.
    destruct (astimezone (mkdatetime D2 0) tz) as [s |] eqn:Hs;
      [| discriminate].
    destruct (astimezone (mkdatetime D2 3) tz) as [e |] eqn:He;
      [| discriminate].
    apply astimezone_ok in Hs, He. subst. reflexivity. }
  split; [exact Hrow |].
  rewrite Hrow in Hhere. inversion Hhere; subst here.
  exists recs_before, recs_after. auto.
Qed.

Lemma row_yields_third_column_witness :
  process_row 5 UTC_TZ [Samples.jan_01; Samples.jan_02; Samples.jan_03]
              "00-03UT 3 4 7"
  = Ok [(mkdatetime Samples.jan_03 0, mkdatetime Samples.jan_03 3, 7)].
Proof.
  apply (row_yields_third_column
           2024 Samples.june Samples.no_issue_line
           (Samples.text_of Samples.quiet_then_storm) UTC_TZ 2
           Samples.jan_01 Samples.jan_02 Samples.jan_03
           ["00-03UT       2.67         5.00         4.00";
            "Rationale: a coronal hole stream arrives on day two.";
            "21-00UT       1.00         4.67         6.33"]
           [] [IssuedYearNotFound 2024] Samples.storm_periods);
    vm_compute; reflexivity.
Defined.

(** *** Intervals *)

(** C3.  Every period returned ends exactly 3 hours after it starts; one
    that starts at 23:00 UTC ends at 02:00 UTC of the next day; and its
    start lies on the forecast date of the column its value was read
    from. *)
Theorem period_spans_three_hours
        (now_year : Z) (now_month : nat -> Z)
        (strptime_year : string -> string -> option Z) (KP_THRESHOLD : Z)
        (text : string) (tz : tzinfo)
        (log : list report) (recs : list period) :
  parse_forecast now_year now_month strptime_year KP_THRESHOLD text tz
  = (log, Ok recs) ->
  forall p, In p recs ->
    hours_of (period_end p) = hours_of (period_start p) + 3 /\
    (dt_hour (period_start p) = 23 ->
     period_end p = mkdatetime (next_day (dt_date (period_start p))) 2) /\
    exists idx dates raw_line values column kp_str,
      forecast_dates now_year now_month strptime_year (splitlines text)
      = Some (idx, dates) /\
      In raw_line (skipn (S idx) (splitlines text)) /\
      row_fields dates raw_line
      = Ok (Some (dt_hour (period_start p), values)) /\
      nth_error values column = Some kp_str /\
      kp_index_of kp_str = Ok (period_kp p) /\
      nth_error dates column = Some (dt_date (period_start p)).
Proof.
  intros Hparse p Hin.
  assert (Hne : recs <> []) by (intros ->; contradiction).
  destruct (parse_forecast_nonempty _ _ _ _ _ _ _ _ Hparse Hne)
    as (idx & dates & Hdates).
  pose proof (parse_forecast_rows _ _ _ _ _ _ _ _ _ _ Hdates Hparse) as Hrows.
  apply (scan_rows_cells _ _ _ _ _ Hrows) in Hin.
  destruct Hin
    as [(l & h & values & n & s & d & Hl & Hf & Hn & Hd & Hk & Hp) _].
  destruct (forecast_dates_resolved _ _ _ _ _ _ Hdates n d Hd)
    as (raw & _ & Hvalid & _).
  apply make_period_ok in Hp. destruct Hp as (Hh & e & Hadd & Hp).
  assert (Hstart : period_start p = mkdatetime d h)
    by (rewrite Hp; reflexivity).
  assert (Hend : period_end p = e) by (rewrite Hp; reflexivity).
  rewrite Hstart, Hend. simpl dt_hour. simpl dt_date.
  split; [apply add_hours_3_elapsed; assumption |]. split.
  - intros H23. destruct (add_hours_3 d h e Hh Hadd) as [[Hlt _] | [_ ->]].
    + lia.
    + rewrite H23. reflexivity.
  - exists idx, dates, l, values, n, s. auto 10.
Qed.

Lemma period_spans_three_hours_witness :
  hours_of (period_end Samples.late_period)
  = hours_of (period_start Samples.late_period) + 3 /\
  period_end Samples.late_period = mkdatetime Samples.jan_03 2.
Proof.
  assert (Hparse :
    parse_forecast 2024 Samples.june Samples.no_issue_line 5
                   (Samples.text_of Samples.late_row) UTC_TZ
    = ([IssuedYearNotFound 2024], Ok [Samples.late_period]))
    by (vm_compute; reflexivity).
  destruct (period_spans_three_hours _ _ _ _ _ _ _ _ Hparse
              Samples.late_period (or_introl eq_refl)) as (H3 & H23 & _).
  split; [exact H3 | exact (H23 eq_refl)].
Defined.

(** *** Forecast dates *)

Lemma resolve_year_base (now_year : Z)
      (strptime_year : string -> string -> option Z) (lines : list string) :
  fst (resolve_year now_year strptime_year lines)
  = match fst (issued_scan strptime_year lines) with
    | Some issued_year => issued_year
    | None => now_year
    end.
Proof.
  unfold resolve_year.
  destruct (issued_scan strptime_year lines) as [[y |] log]; reflexivity.
Qed.

(** C5.  The year of each forecast date is the base year plus one when
    the current UTC month is December and the month token of the column is
    January, and the base year in every other case; each column is decided
    on its own.  The base year is the year of the issue line (the first
    line starting with [:Issued:] that one of the two layouts reads), or
    else the current UTC year. *)
Theorem year_rollover_per_column
        (now_year : Z) (now_month : nat -> Z)
        (strptime_year : string -> string -> option Z)
        (lines : list string) (idx : nat) (dates : list date)
        (column : nat) (d : date) :
  forecast_dates now_year now_month strptime_year lines = Some (idx, dates) ->
  nth_error dates column = Some d ->
  let base_year :=
    match fst (issued_scan strptime_year lines) with
    | Some issued_year => issued_year
    | None => now_year
    end in
  (exists raw month_str,
      find_date_header lines = Some (idx, raw) /\
      nth_error raw (2 * column) = Some month_str /\
      month_str_to_int month_str = Ok (month d)) /\
  (now_month column = 12 /\ month d = 1 -> year d = base_year + 1) /\
  (~ (now_month column = 12 /\ month d = 1) -> year d = base_year) /\
  (forall lines_before line lines_after issued_year,
      lines = lines_before ++ line :: lines_after ->
      (forall l, In l lines_before ->
                 issued_line_year strptime_year l = None) ->
      issued_line_year strptime_year line = Some issued_year ->
      base_year = issued_year) /\
  ((forall l, In l lines -> issued_line_year strptime_year l = None) ->
   base_year = now_year).
Proof.
  intros Hdates Hd base_year.
  destruct (forecast_dates_resolved _ _ _ _ _ _ Hdates column d Hd)
    as (raw & Hfind & _ & Hyear & ms & ds & Hm & _ & Hmonth & _).
  rewrite resolve_year_base in Hyear. fold base_year in Hyear.
  simpl in Hyear. unfold year_for_forecast in Hyear.
  split; [exists raw, ms; auto |].
  assert (Hroll :
    (now_month column = 12 /\ month d = 1 -> year d = base_year + 1) /\
    (~ (now_month column = 12 /\ month d = 1) -> year d = base_year)).
  { destruct (now_month column =? 12) eqn:E12;
      destruct (month d =? 1) eqn:E1; simpl in Hyear;
      rewrite ?Z.eqb_eq, ?Z.eqb_neq in *; split; intros; try assumption; lia. }
  destruct Hroll as [Hplus Hsame].
  split; [exact Hplus |]. split; [exact Hsame |]. split.
  - intros lines_before line lines_after y Hlines Hnone Hline.
    subst base_year. rewrite Hlines.
    rewrite (issued_scan_first _ _ _ _ _ Hnone Hline). reflexivity.
  - intros Hnone. subst base_year.
    rewrite (issued_scan_none _ _ Hnone). reflexivity.
Qed.

Lemma year_rollover_per_column_witness :
  issued_line_year Samples.issued_2023 ":Issued: 2023 Dec 30 1230 UTC"
  = Some 2023 /\
  year Samples.new_year_day = 2023 + 1 /\ year Samples.dec_31 = 2023.
Proof.
  assert (Hdates :
    forecast_dates 2024 Samples.december Samples.issued_2023
                   Samples.new_year_bulletin
    = Some (3%nat, [Samples.dec_30; Samples.dec_31; Samples.new_year_day]))
    by (vm_compute; reflexivity).
  assert (Hline :
    issued_line_year Samples.issued_2023 ":Issued: 2023 Dec 30 1230 UTC"
    = Some 2023) by (vm_compute; reflexivity).
  split; [exact Hline |].
  destruct (year_rollover_per_column _ _ _ _ _ _ 2%nat Samples.new_year_day
              Hdates eq_refl) as (_ & Hplus & _ & Hbase & _).
  destruct (year_rollover_per_column _ _ _ _ _ _ 1%nat Samples.dec_31
              Hdates eq_refl) as (_ & _ & Hsame & _).
  pose proof (Hbase [] ":Issued: 2023 Dec 30 1230 UTC"
                    (tl Samples.new_year_bulletin) 2023 eq_refl
                    (fun l (H : In l []) => match H with end) Hline) as Hb.
  split.
  - rewrite <- Hb. apply Hplus. split; reflexivity.
  - rewrite <- Hb. apply Hsame. intros [_ H]. discriminate H.
Defined.




(** The bound on the numbers of the header is needed: a day that does not
    fit a C [int] makes [date] raise [OverflowError], which the handler of
    the header does not catch. *)
Lemma header_day_beyond_c_int_raises :
  forecast_dates 2024 Samples.june Samples.no_issue_line
                 (splitlines (Samples.text_of Samples.header_day_beyond_c_int))
  = None /\
  snd (parse_forecast 2024 Samples.june Samples.no_issue_line 5
                      (Samples.text_of Samples.header_day_beyond_c_int) UTC_TZ)
  = Raise OverflowError.
Proof. split; vm_compute; reflexivity. Qed.

(** *** Header discovery *)

Lemma header_tokens_ok_probe (l : string) :
  is_blank l = false ->
  ((3 <=? length (split (strip l)))%nat = true /\
   exists m, bind (index (split (strip l)) 0) month_str_to_int = Ok m)
  <-> header_tokens_ok l = true.
Proof.
  intros _. unfold header_tokens_ok, index.
  destruct (split (strip l)) as [| p ps]; simpl.
  - split; [intros [H _]; discriminate | discriminate].
  - destruct (month_str_to_int p) as [m | e].
    + rewrite andb_true_r. split; [tauto | eauto].
    + rewrite andb_false_r. split; [intros [_ [m H]] |]; discriminate.
Qed.

(** The lines at offsets [a .. a + n - 1] after line [i]: the first one
    that is not blank decides. *)
Lemma probe_header_seq (lines : list string) (i n : nat) :
  forall (a j : nat) (parts : list string),
    probe_header lines i (seq a n) = Some (j, parts) <->
    ((i + a <= j < i + a + n)%nat /\
     (forall k, (i + a <= k < j)%nat ->
                exists l, nth_error lines k = Some l /\ is_blank l = true) /\
     exists l, nth_error lines j = Some l /\ is_blank l = false /\
               header_tokens_ok l = true /\ parts = split (strip l)).
Proof.
  induction n as [| n IH]; intros a j parts.
  - simpl. split; [discriminate | intros [H _]; lia].
  - simpl seq. cbn [probe_header].
    destruct (nth_error lines (i + a)) as [l |] eqn:Hl.
    + fold (is_blank l). destruct (is_blank l) eqn:Hblank.
      * rewrite IH. split.
        -- intros (Hj & Hbl & Hrest). split; [lia |]. split; [| exact Hrest].
           intros k Hk. destruct (Nat.eq_dec k (i + a)) as [-> | Hne].
           ++ exists l. auto.
           ++ apply Hbl. lia.
        -- intros (Hj & Hbl & l' & Hl' & Hnb & Hrest).
           assert (j <> i + a)%nat
             by (intros ->; rewrite Hl in Hl'; inversion Hl'; congruence).
           split; [lia |]. split; [intros k Hk; apply Hbl; lia |].
           exists l'. auto.
      * pose proof (header_tokens_ok_probe l Hblank) as Hok.
        destruct (3 <=? length (split (strip l)))%nat eqn:H3.
        -- destruct (bind (index (split (strip l)) 0) month_str_to_int)
             as [m | e] eqn:Hm.
           ++ assert (Htok : header_tokens_ok l = true)
                by (apply Hok; split; [reflexivity | eauto]).
              split.
              ** intros H; inversion H; subst.
                 split; [lia |]. split; [intros k Hk; lia |].
                 exists l. auto.
              ** intros (Hj & Hbl & l' & Hl' & Hnb & Htok' & ->).
                 destruct (Nat.eq_dec j (i + a)) as [-> | Hne].
                 --- rewrite Hl in Hl'. inversion Hl'; subst. reflexivity.
                 --- destruct (Hbl (i + a)%nat ltac:(lia)) as (l0 & Hl0 & Hb0).
                     rewrite Hl in Hl0. inversion Hl0; congruence.
           ++ split; [discriminate |].
              intros (Hj & Hbl & l' & Hl' & Hnb & Htok' & ->).
              destruct (Nat.eq_dec j (i + a)) as [-> | Hne].
              ** rewrite Hl in Hl'. inversion Hl'; subst l'.
                 apply Hok in Htok'. destruct Htok' as [_ [m Hm']].
                 congruence.
              ** destruct (Hbl (i + a)%nat ltac:(lia)) as (l0 & Hl0 & Hb0).
                 rewrite Hl in Hl0. inversion Hl0; congruence.
        -- split; [discriminate |].
           intros (Hj & Hbl & l' & Hl' & Hnb & Htok' & ->).
           destruct (Nat.eq_dec j (i + a)) as [-> | Hne].
           ++ rewrite Hl in Hl'. inversion Hl'; subst l'.
              apply Hok in Htok'. destruct Htok' as [H3' _]. congruence.
           ++ destruct (Hbl (i + a)%nat ltac:(lia)) as (l0 & Hl0 & Hb0).
              rewrite Hl in Hl0. inversion Hl0; congruence.
    + split; [discriminate |].
      intros (Hj & Hbl & l' & Hl' & _).
      destruct (Nat.eq_dec j (i + a)) as [-> | Hne].
      * congruence.
      * destruct (Hbl (i + a)%nat ltac:(lia)) as (l0 & Hl0 & _). congruence.
Qed.

Lemma probe_header_window (lines : list string) (i j : nat)
      (parts : list string) :
  probe_header lines i [1; 2; 3]%nat = Some (j, parts) <->
  (first_nonblank_after lines i j /\
   exists l, nth_error lines j = Some l /\ header_tokens_ok l = true /\
             parts = split (strip l)).
Proof.
  change [1; 2; 3]%nat with (seq 1 3). rewrite probe_header_seq.
  unfold first_nonblank_after. split.
  - intros (Hj & Hbl & l & Hl & Hnb & Htok & Hp).
    split; [split; [lia |]; split; [eauto |] | eauto].
    intros k Hk. apply Hbl. lia.
  - intros ((Hj & (l0 & Hl0 & Hnb) & Hbl) & l & Hl & Htok & Hp).
    split; [lia |]. split; [intros k Hk; apply Hbl; lia |].
    exists l. rewrite Hl in Hl0. inversion Hl0; subst. auto.
Qed.

Lemma skipn_cons_nth {A : Type} (xs : list A) (i : nat) (x : A)
      (rest : list A) :
  skipn i xs = x :: rest -> nth_error xs i = Some x /\ skipn (S i) xs = rest.
Proof.
  revert i. induction xs as [| y xs IH]; intros [| i] H; simpl in *;
    try discriminate.
  - inversion H; subst. auto.
  - apply IH. exact H.
Qed.

Lemma skipn_nil_nth {A : Type} (xs : list A) (i : nat) :
  skipn i xs = [] -> forall k, (i <= k)%nat -> nth_error xs k = None.
Proof.
  intros H k Hk. apply nth_error_None.
  assert (length (skipn i xs) = 0%nat) by (rewrite H; reflexivity).
  rewrite length_skipn in *. lia.
Qed.

(** The marker lines are tried in order; the first whose window yields a
    header decides. *)
Lemma find_header_from_spec (lines : list string) :
  forall (todo : list string) (i : nat) (found : nat * list string),
    todo = skipn i lines ->
    (find_header_from lines todo i = Some found <->
     exists i0, (i <= i0)%nat /\ marker_at lines i0 /\
       probe_header lines i0 [1; 2; 3]%nat = Some found /\
       forall i', (i <= i' < i0)%nat -> marker_at lines i' ->
                  probe_header lines i' [1; 2; 3]%nat = None).
Proof.
  induction todo as [| line rest IH]; intros i found Htodo.
  - simpl. split; [discriminate |].
    intros (i0 & Hi0 & (l & Hl & _) & _).
    rewrite (skipn_nil_nth lines i (eq_sym Htodo) i0 Hi0) in Hl. discriminate.
  - symmetry in Htodo. apply skipn_cons_nth in Htodo.
    destruct Htodo as [Hline Hrest]. symmetry in Hrest.
    specialize (IH (S i) found Hrest).
    cbn [find_header_from]. fold (has_marker line).
    assert (Hlater :
      (exists i0, (S i <= i0)%nat /\ marker_at lines i0 /\
         probe_header lines i0 [1; 2; 3]%nat = Some found /\
         forall i', (S i <= i' < i0)%nat -> marker_at lines i' ->
                    probe_header lines i' [1; 2; 3]%nat = None) ->
      (has_marker line = true -> probe_header lines i [1; 2; 3]%nat = None) ->
      exists i0, (i <= i0)%nat /\ marker_at lines i0 /\
        probe_header lines i0 [1; 2; 3]%nat = Some found /\
        forall i', (i <= i' < i0)%nat -> marker_at lines i' ->
                   probe_header lines i' [1; 2; 3]%nat = None).
    { intros (i0 & Hi0 & Hm & Hp & Hprev) Hhere.
      exists i0. split; [lia |]. split; [exact Hm |]. split; [exact Hp |].
      intros i' Hi' Hm'. destruct (Nat.eq_dec i' i) as [-> | Hne].
      - apply Hhere. destruct Hm' as (l & Hl & Hmk).
        rewrite Hline in Hl. inversion Hl; subst. exact Hmk.
      - apply Hprev; [lia | exact Hm']. }
    assert (Hearlier :
      forall i0, (i <= i0)%nat -> marker_at lines i0 ->
        probe_header lines i0 [1; 2; 3]%nat = Some found ->
        (forall i', (i <= i' < i0)%nat -> marker_at lines i' ->
                    probe_header lines i' [1; 2; 3]%nat = None) ->
        (has_marker line = true -> probe_header lines i [1; 2; 3]%nat = None) ->
        exists i1, (S i <= i1)%nat /\ marker_at lines i1 /\
          probe_header lines i1 [1; 2; 3]%nat = Some found /\
          forall i', (S i <= i' < i1)%nat -> marker_at lines i' ->
                     probe_header lines i' [1; 2; 3]%nat = None).
    { intros i0 Hi0 Hm Hp Hprev Hhere.
      destruct (Nat.eq_dec i0 i) as [-> | Hne].
      - destruct Hm as (l & Hl & Hmk). rewrite Hline in Hl.
        inversion Hl; subst. rewrite (Hhere Hmk) in Hp. discriminate.
      - exists i0. split; [lia |]. split; [exact Hm |]. split; [exact Hp |].
        intros i' Hi' Hm'. apply Hprev; [lia | exact Hm']. }
    destruct (has_marker line) eqn:Hmk.
    + destruct (probe_header lines i [1; 2; 3]%nat) as [r |] eqn:Hprobe.
      * split.
        -- intros H; inversion H; subst r. exists i.
           split; [lia |]. split; [exists line; auto |].
           split; [exact Hprobe |]. intros i' Hi'. lia.
        -- intros (i0 & Hi0 & Hm & Hp & Hprev).
           destruct (Nat.eq_dec i0 i) as [-> | Hne].
           ++ congruence.
           ++ rewrite (Hprev i ltac:(lia)) in Hprobe; [discriminate |].
              exists line. auto.
      * rewrite IH. split.
        -- intros H. apply Hlater; [exact H | reflexivity].
        -- intros (i0 & Hi0 & Hm & Hp & Hprev).
           apply (Hearlier i0); auto.
    + rewrite IH. split.
      * intros H. apply Hlater; [exact H | discriminate].
      * intros (i0 & Hi0 & Hm & Hp & Hprev).
        apply (Hearlier i0); auto. discriminate.
Qed.

Lemma header_behind_prose_counterexample : ~ selects_first_wellformed_line.
Proof.
  intros H.
  assert (Hfound :
    find_date_header Samples.header_behind_prose
    = Some (2%nat, split (strip "Jan 01 Jan 02 Jan 03"))).
  { apply (H Samples.header_behind_prose 0%nat 2%nat "Jan 01 Jan 02 Jan 03").
    - exists "NOAA Kp index breakdown". split; reflexivity.
    - intros i' Hi'. lia.
    - lia.
    - reflexivity.
    - reflexivity.
    - reflexivity.
    - intros k l' Hk Hl'. assert (k = 1%nat) by lia. subst k.
      simpl in Hl'. inversion Hl'; subst. right. reflexivity. }
  vm_compute in Hfound. discriminate.
Qed.

(** C6, as the code has it.  For each line holding the table marker, in
    order, the first line that is not blank among the up to 3 lines after
    it is examined, and only that one: it is the date header when its
    tokens number at least 3 and begin with a month abbreviation; if not,
    the search goes on with the next marker line.  A bulletin in which no
    marker line yields a header is reported as a parse failure and gives
    no period, without an exception. *)
Theorem header_discovery
        (now_year : Z) (now_month : nat -> Z)
        (strptime_year : string -> string -> option Z) (KP_THRESHOLD : Z)
        (lines : list string) :
  (forall j parts,
      find_date_header lines = Some (j, parts) <->
      exists i, header_for lines i j parts /\
                forall i' j' parts', (i' < i)%nat ->
                                     ~ header_for lines i' j' parts') /\
  ((forall i j parts, ~ header_for lines i j parts) ->
   forall tz,
     parse_lines now_year now_month strptime_year KP_THRESHOLD lines tz
     = (snd (resolve_year now_year strptime_year lines)
        ++ [DateHeaderNotFound], Ok [])).
Proof.
  assert (Hfind : forall j parts,
      find_date_header lines = Some (j, parts) <->
      exists i, header_for lines i j parts /\
                forall i' j' parts', (i' < i)%nat ->
                                     ~ header_for lines i' j' parts').
  { intros j parts. unfold find_date_header.
    rewrite (find_header_from_spec lines lines 0 (j, parts) eq_refl).
    unfold header_for. split.
    - intros (i & _ & Hm & Hp & Hprev). exists i.
      apply probe_header_window in Hp.
      split; [tauto |].
      intros i' j' parts' Hi' (Hm' & Hw').
      assert (Hsome : probe_header lines i' [1; 2; 3]%nat = Some (j', parts'))
        by (apply probe_header_window; exact Hw').
      rewrite (Hprev i' ltac:(lia) Hm') in Hsome. discriminate.
    - intros (i & (Hm & Hw) & Hprev). exists i.
      split; [lia |]. split; [exact Hm |].
      split; [apply probe_header_window; exact Hw |].
      intros i' Hi' Hm'.
      destruct (probe_header lines i' [1; 2; 3]%nat) as [[j' parts'] |] eqn:Hp;
        [| reflexivity].
      apply probe_header_window in Hp.
      exfalso. apply (Hprev i' j' parts'); [lia | tauto]. }
  split; [exact Hfind |].
  intros Hnone tz. unfold parse_lines.
  destruct (resolve_year now_year strptime_year lines) as [cy log].
  destruct (find_date_header lines) as [[j parts] |] eqn:Hf; [| reflexivity].
  destruct (proj1 (Hfind j parts) eq_refl) as (i & Hh & _).
  exfalso. exact (Hnone i j parts Hh).
Qed.

Lemma header_discovery_witness :
  parse_lines 2024 Samples.june Samples.no_issue_line 5
              Samples.header_behind_prose UTC_TZ
  = ([IssuedYearNotFound 2024; DateHeaderNotFound], Ok []).
Proof.
  apply (header_discovery 2024 Samples.june Samples.no_issue_line 5
           Samples.header_behind_prose).
  intros i j parts (Hm & ((Hj & (l & Hl & Hnb) & Hbl) & l' & Hl' & Htok & _)).
  destruct Hm as (ml & Hml & Hmk).
  destruct i as [| [| [| [| [| i]]]]]; vm_compute in Hml;
    try discriminate Hml;
    injection Hml as <-; vm_compute in Hmk; try discriminate Hmk.
  destruct (Nat.eq_dec j 1) as [-> | Hne].
  - vm_compute in Hl'. injection Hl' as <-. vm_compute in Htok.
    discriminate Htok.
  - destruct (Hbl 1%nat ltac:(lia)) as (b & Hb & Hblank).
    vm_compute in Hb. injection Hb as <-. vm_compute in Hblank.
    discriminate Hblank.
Defined.

(** *** Activity levels *)

Lemma Qfloor_scaled (m : positive) (e : Z) :
  Qfloor (inject_Z (Zpos m) * Qpower 2 e) = Z.shiftl (Zpos m) e.
Proof.
  destruct e as [| p | p].
  - rewrite Z.shiftl_0_r.
    rewrite (Qfloor_comp _ (inject_Z (Zpos m))) by (simpl; ring).
    apply Qfloor_Z.
  - rewrite Z.shiftl_mul_pow2 by lia.
    rewrite (Qfloor_comp _ (inject_Z (Zpos m * 2 ^ Zpos p))).
    + apply Qfloor_Z.
    + rewrite inject_Z_mult. rewrite Zpower_Qpower by lia. reflexivity.
  - change (Z.shiftl (Zpos m) (Zneg p)) with (Z.shiftr (Zpos m) (Zpos p)).
    rewrite Z.shiftr_div_pow2 by lia.
    assert (Hpos : 0 < 2 ^ Zpos p) by (apply Z.pow_pos_nonneg; lia).
    rewrite (Qfloor_comp _ (Zpos m # Z.to_pos (2 ^ Zpos p))).
    + unfold Qfloor. rewrite Z2Pos.id by lia. reflexivity.
    + change (Qpower 2 (Zneg p)) with (/ Qpower 2 (Zpos p))%Q.
      rewrite <- (Zpower_Qpower 2 (Zpos p)) by lia.
      destruct (2 ^ Zpos p) as [| q | q]; try lia.
      unfold Qeq, Qmult, Qinv, inject_Z; simpl. lia.
Qed.

Lemma int_of_float_floor (x : spec_float) :
  is_finite_nonneg x = true -> int_of_float x = Ok (Qfloor (Q_of_float x)).
Proof.
  destruct x as [s | s | | s m e]; simpl; try discriminate.
  - intros _. reflexivity.
  - destruct s; simpl; try discriminate. intros _.
    f_equal. symmetry. apply Qfloor_scaled.
Qed.

(** C8.  When a value token parses to a float that is finite and not
    negative, the integer level read from it is that float truncated
    toward zero: the floor of the number the float stands for. *)
Theorem kp_index_truncates (kp_str : string) (x : spec_float) :
  py_float kp_str = Ok x ->
  is_finite_nonneg x = true ->
  kp_index_of kp_str = Ok (Qfloor (Q_of_float x)).
Proof.
  intros Hparse Hfinite. unfold kp_index_of. rewrite Hparse. simpl.
  apply int_of_float_floor. exact Hfinite.
Qed.

Lemma kp_index_truncates_witness :
  kp_index_of "4.7" = Ok 4 /\ kp_index_of "5" = Ok 5.
Proof.
  split.
  - exact (kp_index_truncates
             "4.7" (S754_finite false 5291729562160333 (-50))
             ltac:(vm_compute; reflexivity) eq_refl).
  - exact (kp_index_truncates
             "5" (S754_finite false 5629499534213120 (-50))
             ltac:(vm_compute; reflexivity) eq_refl).
Defined.

(** *** Rows and tokens that are not well-formed *)

(** A line that is not a table row, or a row with too few values, gives
    no period and raises nothing. *)
Lemma skipped_line_gives_nothing (KP_THRESHOLD : Z) (tz : tzinfo)
      (dates : list date) (raw_line : string) :
  row_fields dates raw_line = Ok None ->
  process_row KP_THRESHOLD tz dates raw_line = Ok [].
Proof. unfold process_row. intros ->. reflexivity. Qed.

Lemma unmatched_line_skipped (dates : list date) (raw_line : string) :
  match_time_row (strip raw_line) = false ->
  row_fields dates raw_line = Ok None.
Proof.
  unfold row_fields. intros ->. rewrite orb_true_r. reflexivity.
Qed.

(** A value on which [float] raises [ValueError] is passed over and the
    values after it are read. *)
Lemma non_numeric_value_skipped (KP_THRESHOLD : Z) (tz : tzinfo)
      (dates : list date) (h : Z) (i : nat) (kp_str : string)
      (rest : list string) :
  (i < length dates)%nat ->
  py_float kp_str = Raise ValueError ->
  kp_loop KP_THRESHOLD tz dates h i (kp_str :: rest)
  = kp_loop KP_THRESHOLD tz dates h (S i) rest.
Proof.
  intros Hi Hf. cbn [kp_loop].
  apply Nat.leb_gt in Hi. rewrite Hi.
  unfold try_value, kp_index_of. rewrite Hf. reflexivity.
Qed.

(** A row whose start hour is not an hour of the day gives no period. *)
Lemma hour_out_of_range_gives_nothing (KP_THRESHOLD : Z) (tz : tzinfo)
      (dates : list date) (h : Z) (values : list string) (i : nat)
      (out : list period) :
  ~ 0 <= h <= 23 ->
  kp_loop KP_THRESHOLD tz dates h i values = Ok out -> out = [].
Proof.
  intros Hh Hloop. destruct out as [| p out]; [reflexivity |].
  destruct (kp_loop_sound _ _ _ _ _ _ _ Hloop p (or_introl eq_refl))
    as (n & s & d & _ & _ & _ & _ & Hp).
  apply make_period_ok in Hp. tauto.
Qed.

(** In [Samples.hour_out_of_range] the row labelled 25 gives nothing and
    the row after it is read as usual. *)
Example hour_out_of_range_sample :
  parse_forecast 2024 Samples.june Samples.no_issue_line 5
                 (Samples.text_of Samples.hour_out_of_range) UTC_TZ
  = ([IssuedYearNotFound 2024],
     Ok [(mkdatetime Samples.jan_01 3, mkdatetime Samples.jan_01 6, 5)]).
Proof. vm_compute. reflexivity. Qed.

(** C7.  A bulletin whose second data row holds the value [inf]: reading
    that value raises [OverflowError], which no handler of [parse_forecast]
    catches, and the period of the row before it is lost with it. *)
Theorem infinite_value_aborts_parse :
  parse_forecast 2024 Samples.june Samples.no_issue_line 5
                 (Samples.text_of Samples.infinite_value) UTC_TZ
  = ([IssuedYearNotFound 2024], Raise OverflowError).
Proof. vm_compute. reflexivity. Qed.

(** C10.  A row labelled with hour 25 whose first value is [inf]: the
    parse ends in [OverflowError]. *)
Theorem hour_out_of_range_row_raises :
  parse_forecast 2024 Samples.june Samples.no_issue_line 5
                 (Samples.text_of Samples.hour_out_of_range_infinite) UTC_TZ
  = ([IssuedYearNotFound 2024], Raise OverflowError).
Proof. vm_compute. reflexivity. Qed.

(** *** Nothing to notify *)

Lemma no_session_in_reports (log : list report) (tail : list action) :
  (forall a, In a tail -> is_smtp_session a = false) ->
  forall a, In a (map Report log ++ tail) -> is_smtp_session a = false.
Proof.
  intros Htail a Hin. apply in_app_or in Hin. destruct Hin as [Hin | Hin].
  - apply in_map_iff in Hin. destruct Hin as (r & <- & _). reflexivity.
  - apply Htail. exact Hin.
Qed.

(** C9.  With no qualifying period, [send_email_alert] composes no subject
    and no body and opens no SMTP session: it only reports that no email
    is sent.  A run whose parse returns no period therefore sends
    nothing. *)
Theorem empty_periods_send_nothing
        (KP_THRESHOLD : Z) (EMAIL_SENDER RECIPIENT_STRING : string)
        (MAGNETIC_LATITUDE MAGNETIC_LONGITUDE : string)
        (local_tz : tzinfo) (strftime : datetime -> string -> string)
        (smtp : string -> list string -> email -> smtp_outcome)
        (now_year : Z) (now_month : nat -> Z)
        (strptime_year : string -> string -> option Z) :
  (forall local_tz_name_for_display,
      send_email_alert KP_THRESHOLD EMAIL_SENDER RECIPIENT_STRING
                       MAGNETIC_LATITUDE MAGNETIC_LONGITUDE local_tz
                       strftime smtp [] local_tz_name_for_display
      = [Report (NoPeriodsNoEmail KP_THRESHOLD)]) /\
  (forall text log,
      parse_forecast now_year now_month strptime_year KP_THRESHOLD text
                     local_tz = (log, Ok []) ->
      forall a,
        In a (fst (main KP_THRESHOLD EMAIL_SENDER RECIPIENT_STRING
                        MAGNETIC_LATITUDE MAGNETIC_LONGITUDE local_tz
                        strftime smtp now_year now_month strptime_year
                        (Some text))) ->
        is_smtp_session a = false).
Proof.
  split; [reflexivity |].
  intros text log Hparse a. unfold main.
  destruct (is_empty text).
  - simpl. intros [<- | []]. reflexivity.
  - rewrite Hparse. simpl fst. apply no_session_in_reports.
    simpl. intros b [<- | []]. reflexivity.
Qed.

Lemma empty_periods_send_nothing_witness :
  is_smtp_session (Report (NoPeriodsNoEmail 5)) = false.
Proof.
  apply (proj2 (empty_periods_send_nothing
                  5 "me@example.org" "you@example.org" "64.0" "-21.0"
                  UTC_TZ (fun _ _ => EmptyString) (fun _ _ _ => Delivered)
                  2024 Samples.june Samples.no_issue_line)
               (Samples.text_of Samples.two_date_header)
               [IssuedYearNotFound 2024;
                ExpectedThreeDates 2 ["Jan"; "01"; "Jan"; "02"]]).
  - vm_compute. reflexivity.
  - vm_compute. auto.
Defined.

(** ** Further properties of the parser *)

(** *** Rows are recognised without an exception *)

Lemma isdecimal_code (c : ascii) : isdecimal c = true -> 48 <= code c <= 57.
Proof.
  unfold isdecimal, in_range. rewrite andb_true_iff, !Z.leb_le. tauto.
Qed.

Lemma isdecimal_not_space (c : ascii) : isdecimal c = true -> isspace c = false.
Proof.
  intros H. apply isdecimal_code in H. unfold isspace, in_range.
  repeat match goal with
         | |- context [?a <=? ?b] => destruct (Z.leb_spec a b)
         | |- context [?a =? ?b] => destruct (Z.eqb_spec a b)
         end; simpl; try reflexivity; lia.
Qed.

Lemma split_head (a : ascii) (r : string) :
  isspace a = false -> exists w ws, split (String a r) = String a w :: ws.
Proof.
  intros Ha. cbn [split]. rewrite Ha. destruct r as [| c' r'].
  - exists EmptyString, []. reflexivity.
  - destruct (isspace c').
    + eexists EmptyString, _. reflexivity.
    + destruct (split (String c' r')) as [| w ws].
      * exists EmptyString, []. reflexivity.
      * exists w, ws. reflexivity.
Qed.

Lemma split_head2 (a b : ascii) (r : string) :
  isspace a = false -> isspace b = false ->
  exists w ws, split (String a (String b r)) = String a (String b w) :: ws.
Proof.
  intros Ha Hb. destruct (split_head b r Hb) as (w & ws & Hw).
  exists w, ws. cbn [split] in *. rewrite Ha, Hb in *. rewrite Hw.
  reflexivity.
Qed.

Lemma rstrip_nonspace_tail (s : string) :
  rstrip s = EmptyString \/ exists c r, rstrip s = String c r.
Proof. destruct (rstrip s); eauto. Qed.

Lemma py_int_two_digits (a b : ascii) :
  isdecimal a = true -> isdecimal b = true ->
  py_int (String a (String b EmptyString))
  = Ok (10 * digit_value a + digit_value b).
Proof.
  intros Ha Hb.
  pose proof (isdecimal_not_space a Ha) as Sa.
  pose proof (isdecimal_not_space b Hb) as Sb.
  pose proof (isdecimal_code a Ha) as Ca.
  unfold py_int, strip. cbn [lstrip]. rewrite Sa.
  cbn [rstrip]. rewrite Sa, Sb. cbn [andb].
  unfold take_sign.
  replace (code a =? 45) with false by (symmetry; apply Z.eqb_neq; lia).
  replace (code a =? 43) with false by (symmetry; apply Z.eqb_neq; lia).
  unfold digitpart. rewrite Ha. cbn [digitpart_tail]. rewrite Hb.
  cbn [String.length Nat.ltb Nat.leb int_max_str_digits].
  change (4300 <? 2)%nat with false. cbn [digits_value signed].
  first [reflexivity | f_equal; lia].
Qed.

(** The fields of a line: never an exception, and a start hour that is the
    number written by the two leading digits. *)
Lemma row_fields_total (dates : list date) (raw_line : string) :
  row_fields dates raw_line = Ok None \/
  exists a b w values,
    isdecimal a = true /\ isdecimal b = true /\
    split (strip raw_line) = String a (String b w) :: values /\
    (length dates <= length values)%nat /\
    row_fields dates raw_line
    = Ok (Some (10 * digit_value a + digit_value b, values)).
Proof.
  unfold row_fields.
  destruct (is_empty (strip raw_line) || negb (match_time_row (strip raw_line)))
    eqn:Hskip; [left; reflexivity |].
  apply orb_false_iff in Hskip. destruct Hskip as [_ Hmatch].
  apply negb_false_iff in Hmatch.
  destruct (strip raw_line) as [| a [| b r]]; try discriminate.
  assert (Hab : isdecimal a = true /\ isdecimal b = true).
  { unfold match_time_row in Hmatch.
    destruct r as [| c [| d [| e [| f [| g r]]]]]; try discriminate.
    rewrite !andb_true_iff in Hmatch. tauto. }
  destruct Hab as [Ha Hb].
  destruct (split_head2 a b r (isdecimal_not_space a Ha)
                        (isdecimal_not_space b Hb)) as (w & values & Hsplit).
  rewrite Hsplit. cbn [index nth_error bind tl prefix_slice].
  destruct (length values <? length dates)%nat eqn:Hlen; [left; reflexivity |].
  apply Nat.ltb_ge in Hlen.
  right. exists a, b, w, values.
  rewrite (py_int_two_digits a b Ha Hb). auto.
Qed.

Lemma digit_value_range (c : ascii) :
  isdecimal c = true -> 0 <= digit_value c <= 9.
Proof. intros H. apply isdecimal_code in H. unfold digit_value. lia. Qed.

(** A recognised row holds a value for every forecast date. *)
Lemma row_fields_enough_values (dates : list date) (raw_line : string) :
  forall start_hour values,
    row_fields dates raw_line = Ok (Some (start_hour, values)) ->
    (length dates <= length values)%nat.
Proof.
  intros h vs Hrow.
  destruct (row_fields_total dates raw_line)
    as [Hnone | (a & b & w & values & _ & _ & _ & Hlen & Hsome)];
    [congruence |].
  assert (vs = values) by congruence. subst vs. exact Hlen.
Qed.

(** X1.  Recognising a table row never raises, and the [except ValueError]
    around the conversion of the hour is never entered: a line whose
    stripped text begins like [NN-NNUT] and has at least as many value
    tokens as there are forecast dates is recognised, with those value
    tokens and a start hour between 0 and 99, the number its two leading
    digits write; every other line is passed over. *)
Theorem row_recognition_is_total (dates : list date) (raw_line : string) :
  let line := strip raw_line in
  let kp_value_strs := tl (split line) in
  (exists fields,
      row_fields dates raw_line = Ok fields /\
      forall start_hour values,
        fields = Some (start_hour, values) ->
        0 <= start_hour <= 99 /\
        (length dates <= length values)%nat /\
        py_int (prefix_slice 2 (strip raw_line)) = Ok start_hour /\
        match_time_row (strip raw_line) = true) /\
  (match_time_row line = true ->
   (length dates <= length kp_value_strs)%nat ->
   exists start_hour,
     row_fields dates raw_line = Ok (Some (start_hour, kp_value_strs)) /\
     0 <= start_hour <= 99 /\
     py_int (prefix_slice 2 line) = Ok start_hour) /\
  (match_time_row line = false \/
   (length kp_value_strs < length dates)%nat ->
   row_fields dates raw_line = Ok None).
Proof.
  cbv zeta.
  assert (Hshape :
    match_time_row (strip raw_line) = true ->
    exists a b w values,
      isdecimal a = true /\ isdecimal b = true /\
      split (strip raw_line) = String a (String b w) :: values /\
      prefix_slice 2 (strip raw_line) = String a (String b EmptyString) /\
      is_empty (strip raw_line) = false).
  { intros Hmatch.
    destruct (strip raw_line) as [| a [| b r]]; try discriminate.
    assert (Hab : isdecimal a = true /\ isdecimal b = true).
    { unfold match_time_row in Hmatch.
      destruct r as [| c [| d [| e [| f [| g r]]]]]; try discriminate.
      rewrite !andb_true_iff in Hmatch. tauto. }
    destruct Hab as [Ha Hb].
    destruct (split_head2 a b r (isdecimal_not_space a Ha)
                          (isdecimal_not_space b Hb)) as (w & values & Hsplit).
    exists a, b, w, values. auto. }
  split; [| split].
  - destruct (row_fields_total dates raw_line)
      as [Hnone | (a & b & w & values & Ha & Hb & Hsplit & Hlen & Hsome)].
    + exists None. split; [exact Hnone |]. discriminate.
    + eexists. split; [exact Hsome |].
      intros h vs Heq.
      assert (Hh : h = 10 * digit_value a + digit_value b) by congruence.
      assert (Hv : vs = values) by congruence. subst h vs. clear Heq.
      pose proof (digit_value_range a Ha). pose proof (digit_value_range b Hb).
      split; [lia |]. split; [exact Hlen |].
      unfold row_fields in Hsome.
      destruct (is_empty (strip raw_line) ||
                negb (match_time_row (strip raw_line)))
        eqn:Hskip; [discriminate |].
      apply orb_false_iff in Hskip. destruct Hskip as [_ Hmatch].
      apply negb_false_iff in Hmatch. split; [| exact Hmatch].
      destruct (Hshape Hmatch)
        as (a' & b' & w' & vs' & _ & _ & Hsplit' & Hprefix & _).
      rewrite Hsplit' in Hsplit.
      assert (a' = a) by congruence. assert (b' = b) by congruence. subst.
      rewrite Hprefix. apply py_int_two_digits; assumption.
  - intros Hmatch Hlen.
    destruct (Hshape Hmatch)
      as (a & b & w & values & Ha & Hb & Hsplit & Hprefix & Hne).
    exists (10 * digit_value a + digit_value b).
    pose proof (digit_value_range a Ha). pose proof (digit_value_range b Hb).
    split; [| split; [lia | rewrite Hprefix; apply py_int_two_digits; assumption]].
    unfold row_fields. rewrite Hne, Hmatch. cbn [orb negb].
    rewrite Hsplit in *. cbn [index nth_error bind tl prefix_slice] in *.
    apply Nat.ltb_ge in Hlen. rewrite Hlen.
    rewrite (py_int_two_digits a b Ha Hb). reflexivity.
  - intros Hskip.
    destruct (row_fields_total dates raw_line)
      as [Hnone | (a & b & w & values & Ha & Hb & Hsplit & Hlen & Hsome)];
      [exact Hnone | exfalso].
    rewrite Hsplit in Hskip. cbn [tl] in Hskip.
    destruct Hskip as [Hno | Hfew]; [| lia].
    unfold row_fields in Hsome. rewrite Hno in Hsome.
    rewrite orb_true_r in Hsome. discriminate.
Qed.

Lemma row_recognition_is_total_witness :
  row_fields [Samples.jan_01; Samples.jan_02; Samples.jan_03] "21-00UT 1 2 3"
  = Ok (Some (21, ["1"; "2"; "3"])) /\
  py_int (prefix_slice 2 (strip "21-00UT 1 2 3")) = Ok 21 /\
  row_fields [Samples.jan_01; Samples.jan_02; Samples.jan_03] "21-00UT 1 2"
  = Ok None.
Proof.
  destruct (row_recognition_is_total
              [Samples.jan_01; Samples.jan_02; Samples.jan_03]
              "21-00UT 1 2 3") as (_ & Hrow & _).
  destruct (Hrow eq_refl) as (start_hour & Hfields & _ & Hint);
    [vm_compute; lia |].
  assert (Heq : start_hour = 21)
    by (vm_compute in Hint; congruence).
  subst start_hour.
  split; [exact Hfields |]. split; [exact Hint |].
  apply (row_recognition_is_total
           [Samples.jan_01; Samples.jan_02; Samples.jan_03] "21-00UT 1 2").
  right. vm_compute. lia.
Defined.

(** *** The exceptions that can leave the parser *)

Lemma py_float_raise (s : string) (e : exn) :
  py_float s = Raise e -> e = ValueError.
Proof.
  unfold py_float. destruct (take_sign (strip s)) as [neg body].
  destruct ((lower body =? "inf")%string || (lower body =? "infinity")%string);
    [discriminate |].
  destruct (lower body =? "nan")%string; [discriminate |].
  destruct (parse_number body) as [[[ip fp] ex] |]; [discriminate |].
  congruence.
Qed.

Lemma kp_index_of_raise (s : string) (e : exn) :
  kp_index_of s = Raise e -> e = ValueError \/ e = OverflowError.
Proof.
  unfold kp_index_of. destruct (py_float s) as [x | e'] eqn:Hf; simpl.
  - destruct x; simpl; intros H; inversion H; auto.
  - intros H. inversion H; subst. left. eapply py_float_raise; eauto.
Qed.

Lemma add_days_raise (n : nat) :
  forall d e, add_days n d = Raise e -> e = OverflowError.
Proof.
  induction n as [| n IH]; intros d e; simpl; [discriminate |].
  destruct (date_eqb d date_max); [congruence | apply IH].
Qed.

Lemma make_period_raise (tz : tzinfo) (d : date) (h k : Z) (e : exn) :
  make_period tz d h k = Raise e -> e = ValueError \/ e = OverflowError.
Proof.
  unfold make_period, new_time, add_hours, astimezone.
  destruct (negb (fits_c_int h)); simpl; [intros H; inversion H; auto |].
  destruct ((0 <=? h) && (h <=? 23)); simpl; [| intros H; inversion H; auto].
  destruct (add_days _ _) as [d' | e'] eqn:Hadd; simpl.
  - repeat match goal with
           | |- context [if ?c then _ else _] => destruct c; simpl
           end; intros H; inversion H; auto.
  - intros H. inversion H; subst. right. eapply add_days_raise; eauto.
Qed.

Lemma try_value_raise (KP_THRESHOLD : Z) (tz : tzinfo) (dates : list date)
      (h : Z) (i : nat) (s : string) (e : exn) :
  (i < length dates)%nat ->
  try_value KP_THRESHOLD tz dates h i s = Raise e ->
  e = ValueError \/ e = OverflowError.
Proof.
  intros Hi. unfold try_value.
  destruct (kp_index_of s) as [k | e'] eqn:Hk; simpl.
  - destruct (KP_THRESHOLD <=? k); [| discriminate].
    unfold index. destruct (nth_error dates i) as [d |] eqn:Hd; simpl.
    + destruct (make_period tz d h k) as [p | e'] eqn:Hp; simpl;
        [discriminate |].
      intros H. inversion H; subst. eapply make_period_raise; eauto.
    + apply nth_error_None in Hd. lia.
  - intros H. inversion H; subst. eapply kp_index_of_raise; eauto.
Qed.

Lemma kp_loop_raise (KP_THRESHOLD : Z) (tz : tzinfo) (dates : list date)
      (h : Z) (values : list string) :
  forall i e,
    kp_loop KP_THRESHOLD tz dates h i values = Raise e -> e = OverflowError.
Proof.
  induction values as [| s rest IH]; intros i e; simpl; [discriminate |].
  destruct (length dates <=? i)%nat eqn:Hi; [discriminate |].
  apply Nat.leb_gt in Hi.
  destruct (try_value KP_THRESHOLD tz dates h i s) as [ps | e'] eqn:Hv.
  - destruct (kp_loop KP_THRESHOLD tz dates h (S i) rest) as [more | e'']
      eqn:Hmore; simpl; [discriminate |].
    intros H. inversion H; subst. eapply IH; eauto.
  - destruct (try_value_raise _ _ _ _ _ _ _ Hi Hv) as [-> | ->].
    + apply IH.
    + congruence.
Qed.

Lemma process_row_raise (KP_THRESHOLD : Z) (tz : tzinfo) (dates : list date)
      (raw_line : string) (e : exn) :
  process_row KP_THRESHOLD tz dates raw_line = Raise e -> e = OverflowError.
Proof.
  unfold process_row.
  destruct (row_fields_total dates raw_line)
    as [-> | (a & b & w & values & _ & _ & _ & _ & ->)]; simpl.
  - discriminate.
  - apply kp_loop_raise.
Qed.

Lemma scan_rows_raise (KP_THRESHOLD : Z) (tz : tzinfo) (dates : list date)
      (rows : list string) :
  forall e, scan_rows KP_THRESHOLD tz dates rows = Raise e -> e = OverflowError.
Proof.
  induction rows as [| l rows IH]; intros e; simpl; [discriminate |].
  destruct (process_row KP_THRESHOLD tz dates l) as [ps | e'] eqn:Hp; simpl.
  - destruct (scan_rows KP_THRESHOLD tz dates rows) as [more | e'']; simpl;
      [discriminate |].
    intros H. inversion H; subst. apply IH. reflexivity.
  - intros H. inversion H; subst. eapply process_row_raise; eauto.
Qed.

Lemma new_date_raise (y m d : Z) (e : exn) :
  new_date y m d = Raise e -> e = ValueError \/ e = OverflowError.
Proof.
  unfold new_date.
  destruct (negb (fits_c_int y && fits_c_int m && fits_c_int d));
    [intros H; inversion H; auto |].
  destruct (valid_date (mkdate y m d)); [discriminate |].
  intros H; inversion H; auto.
Qed.

Lemma date_loop_raise (now_month : nat -> Z) (current_year : Z) (n : nat) :
  forall raw acc e,
    (length raw <= n)%nat ->
    date_loop now_month current_year raw acc = Raise e ->
    e = ValueError \/ e = OverflowError.
Proof.
  induction n as [| n IH]; intros raw acc e Hlen.
  - destruct raw; [discriminate | simpl in Hlen; lia].
  - destruct raw as [| month_str raw1]; [discriminate |].
    cbn [date_loop].
    destruct (3 <=? length acc)%nat; [discriminate |].
    destruct (month_str_to_int month_str) as [m | e'] eqn:Hm; simpl.
    2: { intros H. inversion H; subst. left.
         eapply month_str_to_int_raise; eauto. }
    destruct raw1 as [| day_str raw2]; [intros H; inversion H; auto |].
    destruct (isdigit day_str); [| intros H; inversion H; auto].
    destruct (py_int day_str) as [dd | e'] eqn:Hd; simpl.
    2: { intros H. inversion H; subst. left. eapply py_int_raise; eauto. }
    destruct (new_date _ m dd) as [dt | e'] eqn:Hnew; simpl.
    2: { intros H. inversion H; subst. eapply new_date_raise; eauto. }
    apply IH. simpl in Hlen. lia.
Qed.

(** X2.  The only exception that can leave [parse_forecast] is
    [OverflowError]: every [ValueError] and [IndexError] raised while
    decoding the header or reading the rows is caught or cannot occur. *)
Theorem only_overflow_leaves_the_parser
        (now_year : Z) (now_month : nat -> Z)
        (strptime_year : string -> string -> option Z) (KP_THRESHOLD : Z)
        (text : string) (tz : tzinfo) (e : exn) :
  snd (parse_forecast now_year now_month strptime_year KP_THRESHOLD text tz)
  = Raise e ->
  e = OverflowError.
Proof.
  unfold parse_forecast. destruct (is_empty text); [discriminate |].
  unfold parse_lines.
  destruct (resolve_year now_year strptime_year (splitlines text))
    as [cy log].
  destruct (find_date_header (splitlines text)) as [[idx raw] |];
    [| discriminate].
  destruct (decode_dates now_month cy raw) as [dates | e'] eqn:Hdec.
  - destruct (negb (length dates =? 3)%nat); [discriminate |].
    simpl. apply scan_rows_raise.
  - unfold decode_dates in Hdec.
    destruct (date_loop_raise now_month cy (length raw) raw [] e'
                              (Nat.le_refl _) Hdec) as [-> | ->].
    + discriminate.
    + simpl. congruence.
Qed.

Lemma only_overflow_leaves_the_parser_witness :
  snd (parse_forecast 2024 Samples.june Samples.no_issue_line 5
                      (Samples.text_of Samples.infinite_value) UTC_TZ)
  = Raise OverflowError.
Proof.
  assert (H : exists e,
    snd (parse_forecast 2024 Samples.june Samples.no_issue_line 5
                        (Samples.text_of Samples.infinite_value) UTC_TZ)
    = Raise e) by (exists OverflowError; vm_compute; reflexivity).
  destruct H as (e & He).
  rewrite He. f_equal.
  exact (only_overflow_leaves_the_parser _ _ _ _ _ _ e He).
Defined.

(** *** The threshold as a filter *)

Section Threshold.

Variables (t t' : Z) (tz : tzinfo) (dates : list date).
Hypothesis Hle : t <= t'.

Lemma try_value_raise_threshold (h : Z) (i : nat) (s : string) :
  try_value t tz dates h i s = Raise ValueError ->
  try_value t' tz dates h i s = Raise ValueError \/
  try_value t' tz dates h i s = Ok [].
Proof.
  unfold try_value. destruct (kp_index_of s) as [k | e]; simpl; [| auto].
  destruct (t <=? k) eqn:Ht; [| discriminate].
  destruct (t' <=? k); auto.
Qed.

Lemma try_value_ok_threshold (h : Z) (i : nat) (s : string)
      (ps : list period) :
  try_value t tz dates h i s = Ok ps ->
  try_value t' tz dates h i s = Ok (filter (at_least t') ps).
Proof.
  intros H. pose proof H as H0. apply try_value_ok in H0.
  destruct H0 as (k & Hk & [(Hge & d & p & Hd & Hp & ->) | (Hlt & ->)]).
  - pose proof (make_period_kp _ _ _ _ _ Hp) as Hkp.
    unfold try_value in *. rewrite Hk in *. simpl in *.
    cbn [filter]. unfold at_least. rewrite Hkp.
    destruct (t' <=? k); [| reflexivity].
    destruct (t <=? k) eqn:E; [exact H | apply Z.leb_gt in E; lia].
  - unfold try_value. rewrite Hk. simpl.
    destruct (t' <=? k) eqn:E; [apply Z.leb_le in E; lia | reflexivity].
Qed.

Lemma kp_loop_threshold (h : Z) (values : list string) :
  forall i out,
    kp_loop t tz dates h i values = Ok out ->
    kp_loop t' tz dates h i values = Ok (filter (at_least t') out).
Proof.
  induction values as [| s rest IH]; intros i out; simpl.
  - intros H; inversion H. reflexivity.
  - destruct (length dates <=? i)%nat; [intros H; inversion H; reflexivity |].
    destruct (try_value t tz dates h i s) as [ps | e] eqn:Hv.
    + intros H. bind_inv H. inversion H; subst out.
      rewrite (try_value_ok_threshold _ _ _ _ Hv), (IH _ _ Ha). simpl.
      rewrite filter_app. reflexivity.
    + destruct e; try discriminate. intros H.
      destruct (try_value_raise_threshold _ _ _ Hv) as [-> | ->].
      * apply IH. exact H.
      * rewrite (IH _ _ H). reflexivity.
Qed.

Lemma scan_rows_threshold (rows : list string) :
  forall out,
    scan_rows t tz dates rows = Ok out ->
    scan_rows t' tz dates rows = Ok (filter (at_least t') out).
Proof.
  induction rows as [| l rows IH]; intros out; simpl.
  - intros H; inversion H. reflexivity.
  - intros H. bind_inv H. bind_inv H. inversion H; subst out.
    rewrite (IH _ Ha0).
    assert (Hrow : process_row t' tz dates l = Ok (filter (at_least t') a)).
    { unfold process_row in *.
      destruct (row_fields dates l) as [[[h values] |] | e]; simpl in *.
      - apply kp_loop_threshold. exact Ha.
      - inversion Ha. reflexivity.
      - discriminate. }
    rewrite Hrow. simpl. rewrite filter_app. reflexivity.
Qed.

End Threshold.

(** X3.  Raising the threshold only filters: when a parse returns at
    threshold [t], the parse of the same bulletin at any [t' >= t] makes
    the same reports and returns, in the same order, the periods among
    them whose level is at least [t']. *)
Theorem raising_threshold_filters
        (now_year : Z) (now_month : nat -> Z)
        (strptime_year : string -> string -> option Z) (t t' : Z)
        (text : string) (tz : tzinfo)
        (log : list report) (recs : list period) :
  t <= t' ->
  parse_forecast now_year now_month strptime_year t text tz = (log, Ok recs) ->
  parse_forecast now_year now_month strptime_year t' text tz
  = (log, Ok (filter (fun p => t' <=? period_kp p) recs)).
Proof.
  intros Hle. unfold parse_forecast. destruct (is_empty text).
  { intros H; inversion H. reflexivity. }
  unfold parse_lines.
  destruct (resolve_year now_year strptime_year (splitlines text))
    as [cy log0].
  destruct (find_date_header (splitlines text)) as [[idx raw] |].
  2: { intros H; inversion H. reflexivity. }
  destruct (decode_dates now_month cy raw) as [dates | e].
  - destruct (negb (length dates =? 3)%nat).
    + intros H; inversion H. reflexivity.
    + intros H.
      assert (Hlog : log0 = log) by congruence.
      assert (Hscan : scan_rows t tz dates (skipn (S idx) (splitlines text))
                      = Ok recs) by congruence.
      rewrite (scan_rows_threshold t t' tz dates Hle _ _ Hscan), Hlog.
      reflexivity.
  - destruct e; intros H; inversion H; reflexivity.
Qed.

Lemma raising_threshold_filters_witness :
  parse_forecast 2024 Samples.june Samples.no_issue_line 6
                 (Samples.text_of Samples.quiet_then_storm) UTC_TZ
  = ([IssuedYearNotFound 2024],
     Ok [(mkdatetime Samples.jan_03 21, mkdatetime Samples.jan_04 0, 6);
         (mkdatetime Samples.jan_03 0, mkdatetime Samples.jan_03 3, 7)]).
Proof.
  apply (raising_threshold_filters
           2024 Samples.june Samples.no_issue_line 5 6
           (Samples.text_of Samples.quiet_then_storm) UTC_TZ
           [IssuedYearNotFound 2024] Samples.storm_periods).
  - lia.
  - vm_compute. reflexivity.
Defined.

(** *** How many periods *)

Lemma kp_loop_length (KP_THRESHOLD : Z) (tz : tzinfo) (dates : list date)
      (h : Z) (values : list string) :
  forall i out,
    kp_loop KP_THRESHOLD tz dates h i values = Ok out ->
    (length out + i <= Nat.max i (length dates))%nat.
Proof.
  induction values as [| s rest IH]; intros i out; simpl.
  - intros H; inversion H. simpl. lia.
  - destruct (length dates <=? i)%nat eqn:Hi.
    { intros H; inversion H. simpl. lia. }
    apply Nat.leb_gt in Hi.
    destruct (try_value KP_THRESHOLD tz dates h i s) as [ps | e] eqn:Hv.
    + intros H. bind_inv H. inversion H; subst out.
      apply IH in Ha. apply try_value_ok in Hv.
      rewrite length_app.
      destruct Hv as (k & _ & [(_ & d & p & _ & _ & ->) | (_ & ->)]);
        simpl; lia.
    + destruct e; try discriminate. intros H. apply IH in H. lia.
Qed.

Lemma scan_rows_length (KP_THRESHOLD : Z) (tz : tzinfo) (dates : list date)
      (rows : list string) :
  forall out,
    scan_rows KP_THRESHOLD tz dates rows = Ok out ->
    (length out <= length dates * length rows)%nat.
Proof.
  induction rows as [| l rows IH]; intros out; simpl.
  - intros H; inversion H. simpl. lia.
  - intros H. bind_inv H. bind_inv H. inversion H; subst out.
    apply IH in Ha0. rewrite length_app.
    assert (length a <= length dates)%nat.
    { unfold process_row in Ha.
      destruct (row_fields dates l) as [[[h values] |] | e]; simpl in Ha.
      - apply kp_loop_length in Ha. lia.
      - inversion Ha. simpl. lia.
      - discriminate. }
    lia.
Qed.

(** Once every forecast date has its value, what follows on the row is
    not read. *)
Lemma kp_loop_beyond (KP_THRESHOLD : Z) (tz : tzinfo) (dates : list date)
      (h : Z) (values : list string) :
  forall i more,
    (length dates <= i + length values)%nat ->
    kp_loop KP_THRESHOLD tz dates h i (values ++ more)
    = kp_loop KP_THRESHOLD tz dates h i values.
Proof.
  induction values as [| s rest IH]; intros i more Hlen.
  - simpl in Hlen. cbn [app kp_loop].
    destruct more as [| s more]; [reflexivity |]. cbn [kp_loop].
    replace (length dates <=? i)%nat with true
      by (symmetry; apply Nat.leb_le; lia).
    reflexivity.
  - cbn [app kp_loop].
    destruct (length dates <=? i)%nat; [reflexivity |].
    rewrite (IH (S i) more) by (simpl in Hlen; lia). reflexivity.
Qed.

Lemma scan_rows_per_line (KP_THRESHOLD : Z) (tz : tzinfo) (dates : list date)
      (rows : list string) :
  forall out,
    scan_rows KP_THRESHOLD tz dates rows = Ok out ->
    exists per_line,
      out = concat per_line /\
      Forall2 (fun raw_line ps =>
                 process_row KP_THRESHOLD tz dates raw_line = Ok ps)
              rows per_line.
Proof.
  induction rows as [| l rows IH]; intros out; simpl.
  - intros H; inversion H. exists []. split; [reflexivity | constructor].
  - intros H. bind_inv H. bind_inv H. inversion H; subst out.
    destruct (IH _ Ha0) as (per_line & -> & Hall).
    exists (a :: per_line). split; [reflexivity |].
    constructor; assumption.
Qed.

(** X4.  A parse returns the periods of each line after the date header
    in turn, at most 3 for a line; value tokens beyond the third of a row
    are never read: whatever stands in their place, the row gives the same
    periods. *)
Theorem at_most_three_periods_per_line
        (now_year : Z) (now_month : nat -> Z)
        (strptime_year : string -> string -> option Z) (KP_THRESHOLD : Z)
        (text : string) (tz : tzinfo)
        (log : list report) (recs : list period) :
  parse_forecast now_year now_month strptime_year KP_THRESHOLD text tz
  = (log, Ok recs) ->
  recs = [] \/
  exists idx raw dates per_line,
    find_date_header (splitlines text) = Some (idx, raw) /\
    forecast_dates now_year now_month strptime_year (splitlines text)
    = Some (idx, dates) /\
    recs = concat per_line /\
    Forall2
      (fun raw_line ps =>
         (length ps <= 3)%nat /\
         match row_fields dates raw_line with
         | Ok (Some (start_hour, kp_value_strs)) =>
             forall beyond_third,
               kp_loop KP_THRESHOLD tz dates start_hour 0
                       (firstn 3 kp_value_strs ++ beyond_third)
               = Ok ps
         | _ => ps = []
         end)
      (skipn (S idx) (splitlines text)) per_line /\
    (length recs <= 3 * (length (splitlines text) - S idx))%nat.
Proof.
  intros Hparse. destruct recs as [| p recs]; [left; reflexivity |].
  right.
  destruct (parse_forecast_nonempty _ _ _ _ _ _ _ _ Hparse)
    as (idx & dates & Hdates); [discriminate |].
  pose proof (parse_forecast_rows _ _ _ _ _ _ _ _ _ _ Hdates Hparse) as Hrows.
  destruct (forecast_dates_some _ _ _ _ _ _ Hdates) as (raw & Hfind & _ & Hlen).
  destruct (scan_rows_per_line _ _ _ _ _ Hrows) as (per_line & Hcat & Hall).
  exists idx, raw, dates, per_line.
  split; [exact Hfind |]. split; [exact Hdates |]. split; [exact Hcat |].
  split.
  - eapply Forall2_impl; [| exact Hall].
    intros raw_line ps Hrow. cbv beta in Hrow. unfold process_row in Hrow.
    pose proof (row_fields_enough_values dates raw_line) as Hfields.
    destruct (row_fields dates raw_line) as [[[h values] |] | e];
      simpl in Hrow.
    + specialize (Hfields h values eq_refl).
      split; [apply kp_loop_length in Hrow; lia |].
      intros beyond_third.
      rewrite kp_loop_beyond by (rewrite length_firstn; lia).
      rewrite <- (firstn_skipn 3 values) in Hrow.
      rewrite kp_loop_beyond in Hrow by (rewrite length_firstn; lia).
      exact Hrow.
    + inversion Hrow. split; [simpl; lia | reflexivity].
    + discriminate.
  - apply scan_rows_length in Hrows. rewrite Hlen, length_skipn in Hrows.
    exact Hrows.
Qed.

Lemma at_most_three_periods_per_line_witness :
  (length Samples.storm_periods
   <= 3 * (length (splitlines (Samples.text_of Samples.quiet_then_storm))
           - 3))%nat /\
  exists per_line,
    Samples.storm_periods = concat per_line /\
    Forall (fun ps => (length ps <= 3)%nat) per_line.
Proof.
  destruct (at_most_three_periods_per_line
              2024 Samples.june Samples.no_issue_line 5
              (Samples.text_of Samples.quiet_then_storm) UTC_TZ
              [IssuedYearNotFound 2024] Samples.storm_periods)
    as [Hnil | (idx & raw & dates & per_line & Hfind & _ & Hcat & Hall & Hlen)].
  - vm_compute. reflexivity.
  - discriminate Hnil.
  - split.
    + vm_compute in Hfind. injection Hfind as <- _. exact Hlen.
    + exists per_line. split; [exact Hcat |].
      clear - Hall. induction Hall as [| l ps ls pss [Hps _] _ IH];
        constructor; assumption.
Defined.

(** *** The date header reads six tokens *)

Lemma date_loop_full (now_month : nat -> Z) (current_year : Z)
      (raw : list string) (acc : list date) :
  (3 <= length acc)%nat ->
  date_loop now_month current_year raw acc = Ok acc.
Proof.
  intros H. destruct raw as [| s raw]; [reflexivity |].
  cbn [date_loop]. apply Nat.leb_le in H. rewrite H. reflexivity.
Qed.

(** One pass of the loop of lines 179-192 from [k] dates on. *)
Lemma date_loop_step (now_month : nat -> Z) (current_year : Z)
      (month_str day_str : string) (raw raw' : list string)
      (acc : list date) :
  (forall d, date_loop now_month current_year raw (acc ++ [d])
             = date_loop now_month current_year raw' (acc ++ [d])) ->
  date_loop now_month current_year (month_str :: day_str :: raw) acc
  = date_loop now_month current_year (month_str :: day_str :: raw') acc.
Proof.
  intros H. cbn [date_loop].
  destruct (3 <=? length acc)%nat; [reflexivity |].
  destruct (month_str_to_int month_str) as [m | e]; [| reflexivity].
  cbn [bind]. destruct (isdigit day_str); [| reflexivity].
  destruct (py_int day_str) as [dd | e]; [| reflexivity].
  cbn [bind].
  destruct (new_date _ m dd) as [d | e]; [| reflexivity].
  cbn [bind]. apply H.
Qed.

(** X5.  Only the first six tokens of the date header are read: what
    follows the third month/day pair on the header line has no effect on
    the dates or on the failure of decoding. *)
Theorem header_reads_six_tokens
        (now_month : nat -> Z) (current_year : Z)
        (forecast_dates_raw : list string) :
  decode_dates now_month current_year forecast_dates_raw
  = decode_dates now_month current_year (firstn 6 forecast_dates_raw).
Proof.
  unfold decode_dates.
  destruct forecast_dates_raw as [| m1 [| d1 [| m2 [| d2 [| m3 [| d3 rest]]]]]];
    try reflexivity.
  cbn [firstn].
  apply date_loop_step. intros a.
  apply date_loop_step. intros b.
  apply date_loop_step. intros c.
  rewrite !date_loop_full by (rewrite !length_app; simpl; lia).
  reflexivity.
Qed.

(** *** Where the base year comes from *)

Lemma first_issued_line (strptime_year : string -> string -> option Z)
      (lines : list string) :
  (exists lines_before line lines_after issued_year,
      lines = lines_before ++ line :: lines_after /\
      (forall l, In l lines_before ->
                 issued_line_year strptime_year l = None) /\
      issued_line_year strptime_year line = Some issued_year) \/
  (forall l, In l lines -> issued_line_year strptime_year l = None).
Proof.
  induction lines as [| line rest IH].
  - right. intros l [].
  - destruct (issued_line_year strptime_year line) as [y |] eqn:Hline.
    + left. exists [], line, rest, y. split; [reflexivity |].
      split; [intros l [] | exact Hline].
    + destruct IH as [(bs & l0 & af & y & -> & Hnone & Hy) | Hnone].
      * left. exists (line :: bs), l0, af, y. split; [reflexivity |].
        split; [| exact Hy].
        intros l [<- | Hl]; [exact Hline | apply Hnone; exact Hl].
      * right. intros l [<- | Hl]; [exact Hline | apply Hnone; exact Hl].
Qed.

(** X6.  The base year is the year of the first line that starts with
    [:Issued:] and whose text between the second colon and [ UTC] is read
    in one of the two layouts; the lines after it are not looked at, and
    the only warnings are those for the issue lines before it that no
    layout reads.  When no line gives a year, the base year is the current
    UTC year, and the fallback is reported after the warnings for the
    issue lines that were not read.  One of the two cases always holds. *)
Theorem base_year_source
        (now_year : Z) (strptime_year : string -> string -> option Z)
        (lines : list string) :
  (forall lines_before line lines_after issued_year,
      lines = lines_before ++ line :: lines_after ->
      (forall l, In l lines_before ->
                 issued_line_year strptime_year l = None) ->
      issued_line_year strptime_year line = Some issued_year ->
      resolve_year now_year strptime_year lines
      = (issued_year,
         map IssuedLineNotParsed
             (filter (unread_issue_line strptime_year) lines_before))) /\
  ((forall l, In l lines -> issued_line_year strptime_year l = None) ->
   resolve_year now_year strptime_year lines
   = (now_year,
      map IssuedLineNotParsed
          (filter (unread_issue_line strptime_year) lines)
      ++ [IssuedYearNotFound now_year])) /\
  ((exists lines_before line lines_after issued_year,
       lines = lines_before ++ line :: lines_after /\
       (forall l, In l lines_before ->
                  issued_line_year strptime_year l = None) /\
       issued_line_year strptime_year line = Some issued_year) \/
   (forall l, In l lines -> issued_line_year strptime_year l = None)).
Proof.
  split; [| split].
  - intros lines_before line lines_after y -> Hnone Hline.
    unfold resolve_year.
    rewrite (issued_scan_first _ _ _ _ _ Hnone Hline). reflexivity.
  - intros Hnone. unfold resolve_year.
    rewrite (issued_scan_none _ _ Hnone). reflexivity.
  - apply first_issued_line.
Qed.

Lemma base_year_source_witness :
  resolve_year 2024 Samples.issued_2023 Samples.new_year_bulletin
  = (2023, []) /\
  resolve_year 2024 Samples.no_issue_line Samples.quiet_then_storm
  = (2024, [IssuedYearNotFound 2024]).
Proof.
  split.
  - apply (proj1 (base_year_source 2024 Samples.issued_2023
                    Samples.new_year_bulletin)
                 [] ":Issued: 2023 Dec 30 1230 UTC"
                 (tl Samples.new_year_bulletin) 2023).
    + reflexivity.
    + intros l [].
    + vm_compute. reflexivity.
  - apply (proj1 (proj2 (base_year_source 2024 Samples.no_issue_line
                           Samples.quiet_then_storm))).
    intros l Hl. unfold Samples.quiet_then_storm in Hl. simpl in Hl.
    repeat (destruct Hl as [<- | Hl]; [vm_compute; reflexivity |]).
    contradiction.
Defined.

(** *** Periods are well-formed datetimes *)

Lemma days_in_month_pos (y m : Z) : 28 <= days_in_month y m <= 31.
Proof.
  unfold days_in_month.
  destruct (m =? 2); [destruct (is_leap y); lia |].
  destruct ((m =? 4) || (m =? 6) || (m =? 9) || (m =? 11)); lia.
Qed.

Lemma next_day_valid (d : date) :
  valid_date d = true -> date_eqb d date_max = false ->
  valid_date (next_day d) = true.
Proof.
  intros Hv Hmax. apply valid_date_bounds in Hv.
  destruct Hv as (Hy & Hm & Hd).
  assert (Hnot : ~ (year d = 9999 /\ month d = 12 /\ day d = 31)).
  { intros (H1 & H2 & H3). unfold date_eqb, date_max, MAXYEAR in Hmax.
    simpl in Hmax. rewrite H1, H2, H3 in Hmax. discriminate. }
  unfold next_day.
  destruct (day d <? days_in_month (year d) (month d)) eqn:Hlt.
  - apply Z.ltb_lt in Hlt. unfold valid_date, MINYEAR, MAXYEAR. simpl.
    rewrite !andb_true_iff, !Z.leb_le. lia.
  - apply Z.ltb_ge in Hlt. destruct (month d <? 12) eqn:Hm12.
    + apply Z.ltb_lt in Hm12. unfold valid_date, MINYEAR, MAXYEAR. simpl.
      pose proof (days_in_month_pos (year d) (month d + 1)).
      rewrite !andb_true_iff, !Z.leb_le. lia.
    + apply Z.ltb_ge in Hm12.
      assert (Hdec : month d = 12) by lia.
      assert (Hdim : days_in_month (year d) (month d) = 31)
        by (rewrite Hdec; reflexivity).
      unfold valid_date, MINYEAR, MAXYEAR. simpl.
      change (days_in_month (year d + 1) 1) with 31.
      rewrite !andb_true_iff, !Z.leb_le. lia.
Qed.

Lemma add_hours_3_valid (d : date) (h : Z) (e : datetime) :
  valid_date d = true -> 0 <= h <= 23 ->
  add_hours (mkdatetime d h) 3 = Ok e ->
  valid_date (dt_date e) = true /\ 0 <= dt_hour e <= 23.
Proof.
  intros Hv Hh Hadd.
  destruct (add_hours_3 d h e Hh Hadd) as [[Hlt ->] | [Hge ->]]; simpl.
  - split; [exact Hv | lia].
  - split; [| lia]. apply next_day_valid; [exact Hv |].
    unfold add_hours in Hadd. simpl in Hadd.
    replace ((h + 3) / 24) with 1 in Hadd by (Z.div_mod_to_equations; lia).
    simpl in Hadd. destruct (date_eqb d date_max); [discriminate | reflexivity].
Qed.

(** X7.  Every period returned starts and ends on a valid calendar date
    of the years 1 to 9999, at an hour from 0 to 23. *)
Theorem periods_are_wellformed
        (now_year : Z) (now_month : nat -> Z)
        (strptime_year : string -> string -> option Z) (KP_THRESHOLD : Z)
        (text : string) (tz : tzinfo)
        (log : list report) (recs : list period) :
  parse_forecast now_year now_month strptime_year KP_THRESHOLD text tz
  = (log, Ok recs) ->
  forall p, In p recs ->
    valid_date (dt_date (period_start p)) = true /\
    0 <= dt_hour (period_start p) <= 23 /\
    valid_date (dt_date (period_end p)) = true /\
    0 <= dt_hour (period_end p) <= 23.
Proof.
  intros Hparse p Hin.
  assert (Hne : recs <> []) by (intros ->; contradiction).
  destruct (parse_forecast_nonempty _ _ _ _ _ _ _ _ Hparse Hne)
    as (idx & dates & Hdates).
  pose proof (parse_forecast_rows _ _ _ _ _ _ _ _ _ _ Hdates Hparse) as Hrows.
  apply (scan_rows_cells _ _ _ _ _ Hrows) in Hin.
  destruct Hin
    as [(l & h & values & n & s & d & Hl & Hf & Hn & Hd & Hk & Hp) _].
  destruct (forecast_dates_resolved _ _ _ _ _ _ Hdates n d Hd)
    as (raw & _ & Hvalid & _).
  apply make_period_ok in Hp. destruct Hp as (Hh & e & Hadd & ->).
  unfold period_start, period_end. simpl.
  destruct (add_hours_3_valid d h e Hvalid Hh Hadd) as [He1 He2].
  auto.
Qed.

Lemma periods_are_wellformed_witness :
  valid_date (dt_date (period_end Samples.late_period)) = true /\
  0 <= dt_hour (period_end Samples.late_period) <= 23.
Proof.
  assert (Hparse :
    parse_forecast 2024 Samples.june Samples.no_issue_line 5
                   (Samples.text_of Samples.late_row) UTC_TZ
    = ([IssuedYearNotFound 2024], Ok [Samples.late_period]))
    by (vm_compute; reflexivity).
  destruct (periods_are_wellformed _ _ _ _ _ _ _ _ Hparse
              Samples.late_period (or_introl eq_refl)) as (_ & _ & H1 & H2).
  split; assumption.
Defined.

(** *** Month abbreviations *)

Lemma lower_char_idem (c : ascii) : lower_char (lower_char c) = lower_char c.
Proof. destruct c as [[] [] [] [] [] [] [] []]; reflexivity. Qed.

Lemma lower_char_space (c : ascii) : isspace (lower_char c) = isspace c.
Proof. destruct c as [[] [] [] [] [] [] [] []]; reflexivity. Qed.

Lemma lower_idem (s : string) : lower (lower s) = lower s.
Proof.
  induction s as [| c r IH]; simpl; [reflexivity |].
  rewrite lower_char_idem, IH. reflexivity.
Qed.

Lemma lower_is_empty (s : string) : is_empty (lower s) = is_empty s.
Proof. destruct s; reflexivity. Qed.

Lemma lstrip_lower (s : string) : lstrip (lower s) = lower (lstrip s).
Proof.
  induction s as [| c r IH]; simpl; [reflexivity |].
  rewrite lower_char_space. destruct (isspace c); [exact IH | reflexivity].
Qed.

Lemma rstrip_lower (s : string) : rstrip (lower s) = lower (rstrip s).
Proof.
  induction s as [| c r IH]; simpl; [reflexivity |].
  rewrite lower_char_space, IH, lower_is_empty.
  destruct (isspace c && is_empty (rstrip r)); reflexivity.
Qed.

Lemma lstrip_idem (s : string) : lstrip (lstrip s) = lstrip s.
Proof.
  induction s as [| c r IH]; simpl; [reflexivity |].
  destruct (isspace c) eqn:E; [exact IH |]. simpl. rewrite E. reflexivity.
Qed.

Lemma rstrip_idem (s : string) : rstrip (rstrip s) = rstrip s.
Proof.
  induction s as [| c r IH]; simpl; [reflexivity |].
  destruct (isspace c && is_empty (rstrip r)) eqn:E; [reflexivity |].
  simpl. rewrite IH, E. reflexivity.
Qed.

Lemma lstrip_rstrip_head (s : string) :
  lstrip s = s -> lstrip (rstrip s) = rstrip s.
Proof.
  destruct s as [| c r]; [reflexivity |]. simpl.
  destruct (isspace c) eqn:E.
  - intros H. exfalso.
    assert (Hlen : (String.length (lstrip r) <= String.length r)%nat).
    { clear. induction r as [| a r IH]; simpl; [lia |].
      destruct (isspace a); simpl; lia. }
    rewrite H in Hlen. simpl in Hlen. lia.
  - intros _. simpl. simpl. rewrite E. reflexivity.
Qed.

Lemma strip_idem (s : string) : strip (strip s) = strip s.
Proof.
  unfold strip.
  rewrite (lstrip_rstrip_head (lstrip s) (lstrip_idem s)).
  apply rstrip_idem.
Qed.

(** X8.  A month token is accepted in any letter case and with
    whitespace around it, and an accepted token gives a month number from
    1 to 12. *)
Theorem month_token_tolerance (month_str : string) :
  month_str_to_int (lower month_str) = month_str_to_int month_str /\
  month_str_to_int (strip month_str) = month_str_to_int month_str /\
  forall m, month_str_to_int month_str = Ok m -> 1 <= m <= 12.
Proof.
  unfold month_str_to_int. split; [| split].
  - unfold strip. rewrite lstrip_lower, rstrip_lower, lower_idem. reflexivity.
  - rewrite strip_idem. reflexivity.
  - intros m. destruct (lookup _ month_abbr) as [v |] eqn:Hl; [| discriminate].
    intros H; inversion H; subst v. apply lookup_in in Hl.
    unfold month_abbr in Hl. simpl in Hl.
    repeat (destruct Hl as [Hl | Hl]; [inversion Hl; lia |]).
    contradiction.
Qed.

Lemma month_token_tolerance_witness :
  month_str_to_int " DEC" = Ok 12 /\ 1 <= 12 <= 12.
Proof.
  assert (H : month_str_to_int " DEC" = Ok 12) by (vm_compute; reflexivity).
  split; [exact H |].
  exact (proj2 (proj2 (month_token_tolerance " DEC")) 12 H).
Defined.

(** ** Properties of the notification step *)

(** *** The envelope recipients *)





Lemma insert_unique_in (x : string) (xs : list string) :
  forall z, In z (insert_unique x xs) <-> z = x \/ In z xs.
Proof.
  induction xs as [| y rest IH]; intros z; simpl.
  - intuition.
  - destruct (String.compare x y) eqn:Hc; simpl.
    + apply String.compare_eq_iff in Hc. subst. intuition.
    + intuition.
    + rewrite IH. intuition.
Qed.

Lemma sorted_set_in (xs : list string) :
  forall z, In z (sorted_set xs) <-> In z xs.
Proof.
  induction xs as [| x rest IH]; intros z; simpl; [tauto |].
  rewrite insert_unique_in, IH. intuition.
Qed.





Section NotifierFacts.

Variable KP_THRESHOLD : Z.
Variables EMAIL_SENDER RECIPIENT_STRING : string.
Variables MAGNETIC_LATITUDE MAGNETIC_LONGITUDE : string.
Variable local_tz : tzinfo.
Variable strftime : datetime -> string -> string.
Variable smtp : string -> list string -> email -> smtp_outcome.

(** With a period to report, one SMTP session and one report. *)
Lemma send_email_alert_nonempty (p : period) (ps : list period)
      (name : string) :
  exists msg r,
    send_email_alert KP_THRESHOLD EMAIL_SENDER RECIPIENT_STRING
                     MAGNETIC_LATITUDE MAGNETIC_LONGITUDE local_tz strftime
                     smtp (p :: ps) name
    = [SmtpSession
         EMAIL_SENDER
         (sorted_set (EMAIL_SENDER :: bcc_recipients RECIPIENT_STRING))
         msg;
       Report r] /\
    msg_from msg = EMAIL_SENDER /\ msg_to msg = EMAIL_SENDER /\
    (msg_subject msg, msg_body msg)
    = compose KP_THRESHOLD MAGNETIC_LATITUDE MAGNETIC_LONGITUDE local_tz
              strftime (p :: ps) name /\
    r = match smtp
                EMAIL_SENDER
                (sorted_set (EMAIL_SENDER :: bcc_recipients RECIPIENT_STRING))
                msg with
        | Delivered =>
            EmailSent EMAIL_SENDER (length (bcc_recipients RECIPIENT_STRING))
        | SmtpFailed => EmailError
        | OtherFailure => EmailUnexpectedError
        end.
Proof.
  unfold send_email_alert.
  destruct (sorted_set (EMAIL_SENDER :: bcc_recipients RECIPIENT_STRING))
    as [| a addrs] eqn:Haddrs.
  - exfalso.
    assert (Hin : In EMAIL_SENDER
                     (sorted_set
                        (EMAIL_SENDER :: bcc_recipients RECIPIENT_STRING)))
      by (apply sorted_set_in; simpl; auto).
    rewrite Haddrs in Hin. contradiction.
  - destruct (compose KP_THRESHOLD MAGNETIC_LATITUDE MAGNETIC_LONGITUDE
                      local_tz strftime (p :: ps) name) as [subject body].
    exists (mkemail EMAIL_SENDER EMAIL_SENDER subject body).
    exists (match smtp EMAIL_SENDER (a :: addrs)
                       (mkemail EMAIL_SENDER EMAIL_SENDER subject body) with
            | Delivered =>
                EmailSent EMAIL_SENDER
                          (length (bcc_recipients RECIPIENT_STRING))
            | SmtpFailed => EmailError
            | OtherFailure => EmailUnexpectedError
            end).
    split; [destruct (smtp _ _ _); reflexivity |].
    simpl. auto.
Qed.

End NotifierFacts.



(** *** The subject *)

Lemma fold_max_spec (zs : list Z) :
  forall a,
    a <= fold_left Z.max zs a /\
    (forall z, In z zs -> z <= fold_left Z.max zs a) /\
    (fold_left Z.max zs a = a \/ In (fold_left Z.max zs a) zs).
Proof.
  induction zs as [| z rest IH]; intros a; simpl.
  - split; [lia |]. split; [tauto | auto].
  - destruct (IH (Z.max a z)) as (H1 & H2 & H3).
    split; [lia |]. split.
    + intros x [<- | Hx]; [lia | auto].
    + destruct H3 as [H3 | H3]; [| auto].
      destruct (Z.max_spec a z) as [[_ Hm] | [_ Hm]]; rewrite Hm in *.
      * right. left. symmetry. exact H3.
      * left. exact H3.
Qed.

(** X11.  The subject ends with the greatest level among the periods:
    the level named is the level of one of them and no period has a
    greater one. *)
Theorem subject_names_greatest_level
        (KP_THRESHOLD : Z) (MAGNETIC_LATITUDE MAGNETIC_LONGITUDE : string)
        (local_tz : tzinfo) (strftime : datetime -> string -> string)
        (p : period) (ps : list period) (name : string) :
  fst (compose KP_THRESHOLD MAGNETIC_LATITUDE MAGNETIC_LONGITUDE local_tz
               strftime (p :: ps) name)
  = ("Aurora Alert! Kp Index Forecast to Reach " ++
     str_of_int (max_kp (p :: ps)))%string /\
  (exists q, In q (p :: ps) /\ period_kp q = max_kp (p :: ps)) /\
  forall q, In q (p :: ps) -> period_kp q <= max_kp (p :: ps).
Proof.
  split; [reflexivity |].
  unfold max_kp.
  destruct (fold_max_spec (map period_kp ps) (period_kp p)) as (H1 & H2 & H3).
  split.
  - destruct H3 as [H3 | H3].
    + exists p. simpl. auto.
    + apply in_map_iff in H3. destruct H3 as (q & Hq & Hin).
      exists q. simpl. auto.
  - intros q [<- | Hq]; [exact H1 |].
    apply H2. apply in_map. exact Hq.
Qed.

(** *** The order of the body *)

Section SortFacts.

Context {A : Type}.
Variable key : A -> Z.

Lemma insert_by_perm (x : A) (xs : list A) :
  Permutation (insert_by key x xs) (x :: xs).
Proof.
  induction xs as [| y rest IH]; simpl; [reflexivity |].
  destruct (key x <=? key y); [reflexivity |].
  rewrite IH. apply perm_swap.
Qed.

Lemma insert_by_sorted (x : A) (xs : list A) :
  StronglySorted (key_le key) xs ->
  StronglySorted (key_le key) (insert_by key x xs).
Proof.
  induction xs as [| y rest IH]; intros Hs; simpl.
  - constructor; constructor.
  - inversion Hs as [| ? ? Hrest Hall]; subst.
    destruct (key x <=? key y) eqn:Hc.
    + apply Z.leb_le in Hc. constructor; [exact Hs |].
      constructor; [exact Hc |].
      eapply Forall_impl; [| exact Hall].
      unfold key_le. intros z Hz. lia.
    + apply Z.leb_gt in Hc. constructor; [apply IH; exact Hrest |].
      apply Forall_forall. intros z Hz.
      apply (Permutation_in _ (insert_by_perm x rest)) in Hz.
      destruct Hz as [<- | Hz].
      * unfold key_le. lia.
      * rewrite Forall_forall in Hall. apply Hall. exact Hz.
Qed.

Lemma insert_by_filter (k : Z) (x : A) (xs : list A) :
  filter (fun a => key a =? k) (insert_by key x xs)
  = filter (fun a => key a =? k) (x :: xs).
Proof.
  induction xs as [| y rest IH]; simpl; [reflexivity |].
  destruct (key x <=? key y) eqn:Hc; [reflexivity |].
  apply Z.leb_gt in Hc. simpl. rewrite IH. simpl.
  destruct (Z.eqb_spec (key x) k); destruct (Z.eqb_spec (key y) k);
    try reflexivity.
  lia.
Qed.

Lemma sort_by_spec (xs : list A) :
  Permutation (sort_by key xs) xs /\
  StronglySorted (key_le key) (sort_by key xs) /\
  forall k, filter (fun a => key a =? k) (sort_by key xs)
            = filter (fun a => key a =? k) xs.
Proof.
  induction xs as [| x rest (IHp & IHs & IHf)]; simpl.
  - split; [constructor |]. split; [constructor | reflexivity].
  - split; [rewrite insert_by_perm; constructor; exact IHp |].
    split; [apply insert_by_sorted; exact IHs |].
    intros k. rewrite insert_by_filter. simpl. rewrite IHf. reflexivity.
Qed.

End SortFacts.

Lemma string_app_assoc (a b c : string) :
  ((a ++ b) ++ c)%string = (a ++ (b ++ c))%string.
Proof.
  induction a as [| x a IH]; simpl; [reflexivity | rewrite IH; reflexivity].
Qed.

(** X12.  The body is its fixed opening, then one line for each period,
    in ascending order of their local start time, each period once, then
    its fixed closing; periods that start at the same local time keep the
    order in which the parser returned them. *)
Theorem body_lists_periods_by_start
        (KP_THRESHOLD : Z) (MAGNETIC_LATITUDE MAGNETIC_LONGITUDE : string)
        (local_tz : tzinfo) (strftime : datetime -> string -> string)
        (high_kp_periods : list period) (name : string) :
  let start := fun p => wall_minutes local_tz (period_start p) in
  let listed := sort_by start high_kp_periods in
  snd (compose KP_THRESHOLD MAGNETIC_LATITUDE MAGNETIC_LONGITUDE local_tz
               strftime high_kp_periods name)
  = (alert_body_head KP_THRESHOLD name
     ++ String.concat "" (map (period_line strftime) listed)
     ++ alert_body_tail MAGNETIC_LATITUDE MAGNETIC_LONGITUDE)%string /\
  length listed = length high_kp_periods /\
  Permutation listed high_kp_periods /\
  StronglySorted (fun a b => start a <= start b) listed /\
  forall minute,
    filter (fun p => start p =? minute) listed
    = filter (fun p => start p =? minute) high_kp_periods.
Proof.
  intros start listed.
  pose proof (sort_by_spec start high_kp_periods) as (Hperm & Hsorted & Hstable).
  split; [| split; [apply Permutation_length; exact Hperm | auto]].
  unfold compose, alert_body_head, alert_body_tail. cbn [snd].
  fold start. fold listed.
  rewrite !string_app_assoc. reflexivity.
Qed.

(** *** One run *)

Lemma reports_hold_no_session (log : list report) :
  filter is_smtp_session (map Report log) = [].
Proof. induction log as [| r log IH]; simpl; [reflexivity | exact IH]. Qed.

(** X13.  A run opens an SMTP session exactly when a non-empty forecast
    text was fetched and its parse returned at least one period, and it
    never opens more than one. *)
Theorem session_iff_periods
        (KP_THRESHOLD : Z) (EMAIL_SENDER RECIPIENT_STRING : string)
        (MAGNETIC_LATITUDE MAGNETIC_LONGITUDE : string)
        (local_tz : tzinfo) (strftime : datetime -> string -> string)
        (smtp : string -> list string -> email -> smtp_outcome)
        (now_year : Z) (now_month : nat -> Z)
        (strptime_year : string -> string -> option Z)
        (forecast_text : option string) :
  let actions :=
    fst (main KP_THRESHOLD EMAIL_SENDER RECIPIENT_STRING MAGNETIC_LATITUDE
              MAGNETIC_LONGITUDE local_tz strftime smtp now_year now_month
              strptime_year forecast_text) in
  (length (filter is_smtp_session actions) <= 1)%nat /\
  (filter is_smtp_session actions <> [] <->
   exists text log p recs,
     forecast_text = Some text /\
     parse_forecast now_year now_month strptime_year KP_THRESHOLD text
                    local_tz = (log, Ok (p :: recs))).
Proof.
  intros actions. subst actions. unfold main.
  destruct forecast_text as [text |].
  2: { simpl. split; [lia |]. split; [contradiction |].
       intros (t & l & p & r & H & _). discriminate. }
  destruct (is_empty text) eqn:Hempty.
  { simpl. split; [lia |]. split; [contradiction |].
    intros (t & l & p & r & H & Hparse). inversion H; subst t.
    unfold parse_forecast in Hparse. rewrite Hempty in Hparse.
    discriminate. }
  destruct (parse_forecast now_year now_month strptime_year KP_THRESHOLD
                           text local_tz) as [log [recs | e]] eqn:Hparse.
  - destruct recs as [| p recs].
    + cbn [fst]. rewrite filter_app, reports_hold_no_session. simpl.
      split; [lia |]. split; [contradiction |].
      intros (t & l & q & r & H & Hq). inversion H; subst t.
      rewrite Hparse in Hq. discriminate.
    + destruct (send_email_alert_nonempty
                  KP_THRESHOLD EMAIL_SENDER RECIPIENT_STRING
                  MAGNETIC_LATITUDE MAGNETIC_LONGITUDE local_tz strftime
                  smtp p recs (tz_key local_tz))
        as (msg & r & Hsend & _).
      cbn [fst]. rewrite Hsend, filter_app, reports_hold_no_session. simpl.
      split; [lia |]. split; [| discriminate].
      intros _. exists text, log, p, recs. auto.
  - cbn [fst]. rewrite reports_hold_no_session. simpl.
    split; [lia |]. split; [contradiction |].
    intros (t & l & q & r & H & Hq). inversion H; subst t.
    rewrite Hparse in Hq. discriminate.
Qed.

(** ** Properties of the settings *)

Import Settings.

Lemma hash_eqb (c : ascii) : Ascii.eqb "#"%char c = ishash c.
Proof. destruct c as [[] [] [] [] [] [] [] []]; reflexivity. Qed.

Lemma before_hash_no_hash (s : string) : no_hash (before "#" s) = true.
Proof.
  induction s as [| c r IH]; [reflexivity |].
  cbn [before startswith]. rewrite hash_eqb, andb_true_r.
  destruct (ishash c) eqn:E; [reflexivity |].
  unfold no_hash in *. cbn [all_chars]. rewrite E, IH. reflexivity.
Qed.

Lemma before_hash_fixed (s : string) : no_hash s = true -> before "#" s = s.
Proof.
  induction s as [| c r IH]; [reflexivity |].
  unfold no_hash. cbn [all_chars before startswith].
  rewrite hash_eqb, andb_true_r, andb_true_iff, negb_true_iff.
  intros [Hc Hr]. rewrite Hc. f_equal. apply IH. exact Hr.
Qed.

Lemma before_hash_comment (value comment : string) :
  no_hash value = true ->
  before "#" (value ++ String "#"%char comment) = value.
Proof.
  induction value as [| c r IH]; [reflexivity |].
  unfold no_hash. cbn [all_chars].
  rewrite andb_true_iff, negb_true_iff. intros [Hc Hr].
  change ((String c r ++ String "#"%char comment)%string)
    with (String c (r ++ String "#"%char comment)%string).
  cbn [before startswith]. rewrite hash_eqb, andb_true_r, Hc.
  f_equal. apply IH. exact Hr.
Qed.

Lemma lstrip_chars_all (chars p : ascii -> bool) (s : string) :
  all_chars p s = true -> all_chars p (lstrip_chars chars s) = true.
Proof.
  induction s as [| c r IH]; [reflexivity |]. cbn [all_chars lstrip_chars].
  rewrite andb_true_iff. intros [Hc Hr].
  destruct (chars c); [apply IH; exact Hr |].
  cbn [all_chars]. rewrite Hc, Hr. reflexivity.
Qed.

Lemma rstrip_chars_all (chars p : ascii -> bool) (s : string) :
  all_chars p s = true -> all_chars p (rstrip_chars chars s) = true.
Proof.
  induction s as [| c r IH]; [reflexivity |]. cbn [all_chars rstrip_chars].
  rewrite andb_true_iff. intros [Hc Hr].
  destruct (chars c && is_empty (rstrip_chars chars r)); [reflexivity |].
  cbn [all_chars]. rewrite Hc, (IH Hr). reflexivity.
Qed.

Lemma lstrip_as_chars (s : string) : lstrip s = lstrip_chars isspace s.
Proof.
  induction s as [| c r IH]; [reflexivity |]. simpl. rewrite IH. reflexivity.
Qed.

Lemma rstrip_as_chars (s : string) : rstrip s = rstrip_chars isspace s.
Proof.
  induction s as [| c r IH]; [reflexivity |]. simpl. rewrite IH. reflexivity.
Qed.

Lemma strip_as_chars (s : string) : strip s = strip_chars isspace s.
Proof.
  unfold strip, strip_chars.
  rewrite lstrip_as_chars, rstrip_as_chars. reflexivity.
Qed.

Lemma strip_chars_all (chars p : ascii -> bool) (s : string) :
  all_chars p s = true -> all_chars p (strip_chars chars s) = true.
Proof.
  intros H. unfold strip_chars. apply rstrip_chars_all, lstrip_chars_all, H.
Qed.

Lemma lstrip_chars_first (chars : ascii -> bool) (s : string) (c : ascii) :
  first_char (lstrip_chars chars s) = Some c -> chars c = false.
Proof.
  induction s as [| a r IH]; [discriminate |]. cbn [lstrip_chars].
  destruct (chars a) eqn:E; [exact IH |].
  simpl. intros H; inversion H; subst. exact E.
Qed.

Lemma rstrip_chars_first (chars : ascii -> bool) (s : string) (c : ascii) :
  first_char (rstrip_chars chars s) = Some c -> first_char s = Some c.
Proof.
  destruct s as [| a r]; [discriminate |]. cbn [rstrip_chars].
  destruct (chars a && is_empty (rstrip_chars chars r)); [discriminate |].
  simpl. auto.
Qed.

Lemma rstrip_chars_last (chars : ascii -> bool) (s : string) (c : ascii) :
  last_char (rstrip_chars chars s) = Some c -> chars c = false.
Proof.
  induction s as [| a r IH]; [discriminate |]. cbn [rstrip_chars].
  destruct (rstrip_chars chars r) as [| b r'] eqn:Hr.
  - simpl. rewrite andb_true_r. destruct (chars a) eqn:E; [discriminate |].
    simpl. intros H; inversion H; subst. exact E.
  - simpl is_empty. rewrite andb_false_r.
    change (last_char (String a (String b r')))
      with (last_char (String b r')).
    exact IH.
Qed.

Lemma strip_chars_ends (chars : ascii -> bool) (s : string) (c : ascii) :
  first_char (strip_chars chars s) = Some c \/
  last_char (strip_chars chars s) = Some c ->
  chars c = false.
Proof.
  unfold strip_chars. intros [H | H].
  - apply rstrip_chars_first in H. eapply lstrip_chars_first; eauto.
  - eapply rstrip_chars_last; eauto.
Qed.

(** X14.  A setting read with [get_clean_env] holds no hash sign and
    neither begins nor ends with a quote; it is absent only when the
    variable is unset and no default is given. *)
Theorem clean_setting_shape
        (env : environ) (var_name : string) (default : option string) :
  (get_clean_env env var_name default = None <->
   env var_name = None /\ default = None) /\
  forall value,
    get_clean_env env var_name default = Some value ->
    all_chars (fun c => negb (ishash c)) value = true /\
    forall c, first_char value = Some c \/ last_char value = Some c ->
              isquote c = false.
Proof.
  unfold get_clean_env, getenv. split.
  - destruct (env var_name) as [v |]; [| destruct default as [v |]].
    + split; [discriminate | intros [H _]; discriminate].
    + split; [discriminate | intros [_ H]; discriminate].
    + tauto.
  - intros value Hget.
    assert (Hclean : exists raw, value = clean_value raw).
    { destruct (env var_name) as [v |]; [| destruct default as [v |]];
        inversion Hget; eauto. }
    destruct Hclean as (raw & ->). unfold clean_value. split.
    + apply strip_chars_all. rewrite strip_as_chars. apply strip_chars_all.
      apply before_hash_no_hash.
    + intros c. apply strip_chars_ends.
Qed.

Lemma clean_setting_shape_witness :
  all_chars (fun c => negb (ishash c)) "64.1" = true.
Proof.
  apply (proj2 (clean_setting_shape sample_env "MAGNETIC_LATITUDE" None)
               "64.1").
  vm_compute. reflexivity.
Defined.

(** X15.  What follows the first hash sign of a value is a comment: it
    has no effect on the setting read. *)
Theorem comment_is_ignored (value comment : string) :
  all_chars (fun c => negb (ishash c)) value = true ->
  clean_value (value ++ String "#"%char comment) = clean_value value.
Proof.
  intros H. unfold clean_value.
  rewrite (before_hash_comment value comment H), (before_hash_fixed value H).
  reflexivity.
Qed.

Lemma comment_is_ignored_witness :
  clean_value "6  # strong storms only" = clean_value "6  ".
Proof.
  apply (comment_is_ignored "6  " " strong storms only"). reflexivity.
Defined.

Lemma lstrip_chars_fixed (chars : ascii -> bool) (s : string) :
  (forall c, first_char s = Some c -> chars c = false) ->
  lstrip_chars chars s = s.
Proof.
  destruct s as [| a r]; [reflexivity |]. simpl. intros H.
  rewrite (H a eq_refl). reflexivity.
Qed.

Lemma rstrip_chars_fixed (chars : ascii -> bool) (s : string) :
  (forall c, last_char s = Some c -> chars c = false) ->
  rstrip_chars chars s = s.
Proof.
  induction s as [| a r IH]; [reflexivity |]. intros H.
  cbn [rstrip_chars]. destruct r as [| b r'].
  - simpl. rewrite (H a eq_refl). reflexivity.
  - rewrite IH by (intros c Hc; apply H; exact Hc).
    simpl is_empty. rewrite andb_false_r. reflexivity.
Qed.

(** X16.  A value without a hash sign whose first and last characters are
    neither whitespace nor quotes is read as it is. *)
Theorem clean_value_unchanged (value : string) :
  all_chars (fun c => negb (ishash c)) value = true ->
  (forall c, first_char value = Some c \/ last_char value = Some c ->
             isspace c = false /\ isquote c = false) ->
  clean_value value = value.
Proof.
  intros Hhash Hends. unfold clean_value.
  rewrite (before_hash_fixed value Hhash), strip_as_chars.
  unfold strip_chars.
  rewrite (lstrip_chars_fixed isspace value)
    by (intros c Hc; apply Hends; auto).
  rewrite (rstrip_chars_fixed isspace value)
    by (intros c Hc; apply Hends; auto).
  rewrite (lstrip_chars_fixed isquote value)
    by (intros c Hc; apply Hends; auto).
  apply rstrip_chars_fixed. intros c Hc. apply Hends. auto.
Qed.

Lemma clean_value_unchanged_witness :
  clean_value "smtp.example.org" = "smtp.example.org".
Proof.
  apply clean_value_unchanged.
  - reflexivity.
  - intros c [H | H]; vm_compute in H; injection H as <-;
      split; reflexivity.
Defined.

Lemma truthy_nonempty (v : option string) (s : string) :
  v = Some s -> truthy v = true -> s <> EmptyString.
Proof. intros -> H ->. discriminate. Qed.

(** X17.  When the settings load, the sender, the password, the recipient
    setting and the SMTP server are not empty and the SMTP port is not 0;
    the threshold is 5 when [KP_THRESHOLD] is not set. *)
Theorem loaded_settings_are_complete (env : environ) (cfg : settings) :
  load_settings env = Some cfg ->
  EMAIL_SENDER cfg <> EmptyString /\
  EMAIL_PASSWORD cfg <> EmptyString /\
  RECIPIENT_STRING cfg <> EmptyString /\
  SMTP_SERVER cfg <> EmptyString /\
  SMTP_PORT cfg <> 0 /\
  (env "KP_THRESHOLD" = None -> KP_THRESHOLD cfg = 5).
Proof.
  unfold load_settings, load_settings_with.
  destruct (float_setting (get_clean_env env "MAGNETIC_LATITUDE" None))
    as [lat |]; [| discriminate].
  destruct (float_setting (get_clean_env env "MAGNETIC_LONGITUDE" None))
    as [lon |]; [| discriminate].
  destruct (int_setting (get_clean_env env "KP_THRESHOLD" (Some "5")))
    as [kp |] eqn:Hkp; [| discriminate].
  destruct (int_setting (get_clean_env env "SMTP_PORT" None))
    as [port |]; [| discriminate].
  destruct (get_clean_env env "EMAIL_SENDER" None) as [s |] eqn:Hs;
    [| discriminate].
  destruct (get_clean_env env "EMAIL_PASSWORD" None) as [p |] eqn:Hp;
    [| discriminate].
  destruct (get_clean_env env "EMAIL_RECIPIENT" None) as [r |] eqn:Hr;
    [| discriminate].
  destruct (get_clean_env env "SMTP_SERVER" None) as [h |] eqn:Hh;
    [| discriminate].
  destruct (truthy (Some s) && truthy (Some p) && truthy (Some r) &&
            truthy (Some h) && negb (port =? 0)) eqn:Hall; [| discriminate].
  rewrite !andb_true_iff in Hall.
  destruct Hall as ((((Hts & Htp) & Htr) & Hth) & Hport).
  intros H; inversion H; subst cfg. simpl.
  repeat split; try (eapply truthy_nonempty; [reflexivity | assumption]).
  - apply negb_true_iff, Z.eqb_neq in Hport. exact Hport.
  - intros Hunset. unfold get_clean_env, getenv in Hkp.
    rewrite Hunset in Hkp. vm_compute in Hkp. congruence.
Qed.

Lemma loaded_settings_are_complete_witness :
  exists cfg, load_settings sample_env = Some cfg /\
              EMAIL_PASSWORD cfg = "secret" /\ KP_THRESHOLD cfg = 5.
Proof.
  destruct (load_settings sample_env) as [cfg |] eqn:Hload;
    [| vm_compute in Hload; discriminate].
  exists cfg. split; [reflexivity |].
  split.
  - vm_compute in Hload. injection Hload as <-. reflexivity.
  - apply (loaded_settings_are_complete sample_env cfg Hload). reflexivity.
Defined.

Lemma get_clean_env_unset (env : environ) (var_name : string) :
  env var_name = None -> get_clean_env env var_name None = None.
Proof. unfold get_clean_env, getenv. intros ->. reflexivity. Qed.

(** X18.  When one of the seven variables without a default is not set,
    the settings do not load: the module reports the error and exits, and
    nothing is fetched or sent. *)
Theorem missing_setting_stops_the_load (env : environ) (var_name : string) :
  In var_name required_settings ->
  env var_name = None ->
  load_settings env = None.
Proof.
  intros Hin Hunset. apply get_clean_env_unset in Hunset.
  unfold load_settings, load_settings_with.
  unfold required_settings in Hin. simpl in Hin.
  repeat (destruct Hin as [<- | Hin]);
    try contradiction;
    cbv zeta; rewrite ?Hunset; cbn [float_setting int_setting];
    repeat match goal with
           | |- context [match ?x with _ => _ end] =>
               destruct x; try reflexivity
           end;
    try reflexivity.
Qed.

Lemma missing_setting_stops_the_load_witness :
  load_settings (environ_of [("EMAIL_SENDER", "me@example.org")]) = None.
Proof.
  apply (missing_setting_stops_the_load _ "SMTP_PORT").
  - simpl. auto 10.
  - reflexivity.
Defined.
